(** * Bech32 probe: the decoder of [bech32_py_probe.py] and its checksum

    The development embeds
    [wallet-marketplace-source/bech32_probe/bech32_py_probe.py]:
    [hrp_expand], [polymod] and [bech32_decode], over Python strings seen
    as lists of code points and Python integers seen as [Z].  The encoder,
    which the probe does not contain, is modelled from the specification
    in [Module Encoder]. *)

From Stdlib Require Import ZArith List Lia Bool String Ascii.
Import ListNotations.
Local Open Scope Z_scope.

(** ** Python strings and the built-ins the probe calls *)

Module Py.

(** A [str] is its sequence of code points; [ord] of a character is the
    code point itself. *)
Definition str := list Z.

Definition ord (x : Z) : Z := x.

Definition len {A} (s : list A) : Z := Z.of_nat (List.length s).

(** A literal of the source, written as a Rocq string. *)
Definition lit (s : string) : str :=
  map (fun a => Z.of_N (N_of_ascii a)) (list_ascii_of_string s).

Definition is_upper (c : Z) : bool := (65 <=? c) && (c <=? 90).
Definition is_lower (c : Z) : bool := (97 <=? c) && (c <=? 122).

(** [str.lower] and [str.upper], one code point at a time.  On ASCII they
    move the letters and keep everything else.  Outside ASCII the table is
    partial: it holds KELVIN SIGN (U+212A), which lowers to [k], and
    sharp s, dotless i and long s, which raise to [SS], [I] and [S];
    every other code point is kept as it is.  The theorems below apply
    the two maps to ASCII strings or at a listed entry only. *)
Definition lower_cp (c : Z) : list Z :=
  if is_upper c then [c + 32]
  else if c =? 0x212A then [107]
  else [c].

Definition upper_cp (c : Z) : list Z :=
  if is_lower c then [c - 32]
  else if c =? 0xDF then [83; 83]
  else if c =? 0x131 then [73]
  else if c =? 0x17F then [83]
  else [c].

Definition lower (s : str) : str := flat_map lower_cp s.
Definition upper (s : str) : str := flat_map upper_cp s.

(** Equality of strings, as [==] decides it. *)
Fixpoint eqb (s t : str) : bool :=
  match s, t with
  | [], [] => true
  | x :: s', y :: t' => (x =? y) && eqb s' t'
  | _, _ => false
  end.

(** [s.rfind(c)]: the highest index holding [c], or [-1]. *)
Fixpoint rfind (c : Z) (s : str) : Z :=
  match s with
  | [] => -1
  | x :: r =>
      let p := rfind c r in
      if 0 <=? p then p + 1 else if x =? c then 0 else -1
  end.

(** The slices [s[:n]] and [s[n:]]; a negative bound counts from the
    end. *)
Definition slice_to {A} (s : list A) (n : Z) : list A :=
  firstn (Z.to_nat (if n <? 0 then len s + n else n)) s.

Definition slice_from {A} (s : list A) (n : Z) : list A :=
  skipn (Z.to_nat (if n <? 0 then len s + n else n)) s.

(** [enumerate] and [range]. *)
Fixpoint enumerate_from {A} (i : Z) (l : list A) : list (Z * A) :=
  match l with
  | [] => []
  | x :: r => (i, x) :: enumerate_from (i + 1) r
  end.

Definition enumerate {A} (l : list A) : list (Z * A) := enumerate_from 0 l.

Definition range (n : Z) : list Z := map Z.of_nat (seq 0 (Z.to_nat n)).

(** A [dict] with code points as keys: the entries in insertion order;
    storing under a key already present overwrites its value. *)
Definition dict (V : Type) := list (Z * V).

Fixpoint dict_set {V} (d : dict V) (k : Z) (v : V) : dict V :=
  match d with
  | [] => [(k, v)]
  | (k', v') :: r => if k' =? k then (k', v) :: r else (k', v') :: dict_set r k v
  end.

Fixpoint dict_get {V} (d : dict V) (k : Z) : option V :=
  match d with
  | [] => None
  | (k', v') :: r => if k' =? k then Some v' else dict_get r k
  end.

End Py.

(** ** Exceptions *)

(** The four [ValueError]s of [bech32_decode], named as the specification
    names them: ['invalid char range'], ['mixed case'],
    ['invalid separator position'] and ['invalid char {ch}']. *)
Inductive ValueError : Type :=
| InvalidCharRange
| MixedCase
| InvalidSeparatorPosition
| InvalidCharacter (ch : Z).

Inductive result (A : Type) : Type :=
| Ok (a : A)
| Raise (e : ValueError).

Arguments Ok {A} a.
Arguments Raise {A} e.

Definition bind {A B} (r : result A) (k : A -> result B) : result B :=
  match r with
  | Ok a => k a
  | Raise e => Raise e
  end.

Notation "x <- r ;; k" := (bind r (fun x => k))
  (at level 61, r at next level, right associativity).

(** ** The probe *)

Definition CHARSET : Py.str := Py.lit "qpzry9x8gf2tvdw0s3jn54khce6mua7l".

Definition CHARSET_MAP : Py.dict Z :=
  fold_left (fun d ic => Py.dict_set d (snd ic) (fst ic)) (Py.enumerate CHARSET) [].

Definition GENERATORS : list Z :=
  [0x3b6a57b2; 0x26508e6d; 0x1ea119fa; 0x3d4233dd; 0x2a1462b3].

Definition hrp_expand (hrp : Py.str) : list Z :=
  map (fun x => Z.shiftr (Py.ord x) 5) hrp ++ [0]
  ++ map (fun x => Z.land (Py.ord x) 31) hrp.

(** One turn of the inner loop of [polymod]:
    [if (top >> i) & 1: chk ^= GENERATORS[i]]. *)
Definition gen_turn (top : Z) (chk : Z) (i : Z) : Z :=
  if Z.land (Z.shiftr top i) 1 =? 0 then chk
  else Z.lxor chk (nth (Z.to_nat i) GENERATORS 0).

(** The inner loop, cut after its first [k] turns. *)
Definition gen_loop (k : Z) (top : Z) (chk : Z) : Z :=
  fold_left (gen_turn top) (Py.range k) chk.

(** The body of the outer loop, for one value [v]. *)
Definition polymod_step (chk : Z) (v : Z) : Z :=
  let top := Z.shiftr chk 25 in
  let chk := Z.lxor (Z.shiftl (Z.land chk 0x1ffffff) 5) v in
  gen_loop 5 top chk.

Definition polymod (values : list Z) : Z :=
  fold_left polymod_step values 1.

(** The loop over [data_part], with [data] as built so far. *)
Fixpoint data_loop (data_part : Py.str) (data : list Z) : result (list Z) :=
  match data_part with
  | [] => Ok data
  | ch :: rest =>
      match Py.dict_get CHARSET_MAP ch with
      | None => Raise (InvalidCharacter ch)
      | Some v => data_loop rest (data ++ [v])
      end
  end.

(** What [bech32_decode] returns: the tuple [(hrp, data, pm, ok)]. *)
Record decoded : Type := Decoded {
  d_hrp : Py.str;
  d_data : list Z;
  d_pm : Z;
  d_ok : bool
}.

Definition out_of_range (x : Z) : bool := (Py.ord x <? 33) || (Py.ord x >? 126).

Definition mixed_case (bech : Py.str) : bool :=
  negb (Py.eqb (Py.lower bech) bech) && negb (Py.eqb (Py.upper bech) bech).

Definition bad_separator (pos : Z) (bech : Py.str) : bool :=
  (pos <? 1) || (pos + 7 >? Py.len bech).

Definition bech32_decode (bech : Py.str) : result decoded :=
  if existsb out_of_range bech then Raise InvalidCharRange
  else if mixed_case bech then Raise MixedCase
  else
    let bech := Py.lower bech in
    let pos := Py.rfind 49 bech in
    if bad_separator pos bech then Raise InvalidSeparatorPosition
    else
      let hrp := Py.slice_to bech pos in
      let data_part := Py.slice_from bech (pos + 1) in
      data <- data_loop data_part [] ;;
      let values := hrp_expand hrp ++ data in
      let pm := polymod values in
      let ok := pm =? 1 in
      Ok (Decoded hrp data pm ok).

(** ** Bit-level facts *)

Section Bits.

Lemma land_lxor_l (a b c : Z) :
  Z.land (Z.lxor a b) c = Z.lxor (Z.land a c) (Z.land b c).
Proof.
  apply Z.bits_inj'; intros n _.
  rewrite Z.land_spec, !Z.lxor_spec, !Z.land_spec.
  destruct (Z.testbit a n), (Z.testbit b n), (Z.testbit c n); reflexivity.
Qed.

Lemma lxor_bound (n a b : Z) :
  0 <= n -> 0 <= a < 2 ^ n -> 0 <= b < 2 ^ n -> 0 <= Z.lxor a b < 2 ^ n.
Proof.
  intros Hn Ha Hb.
  assert (E : Z.lxor a b = Z.lxor a b mod 2 ^ n).
  { rewrite <- Z.land_ones, land_lxor_l, !Z.land_ones by assumption.
    now rewrite !Z.mod_small. }
  rewrite E. apply Z.mod_pos_bound. apply Z.pow_pos_nonneg; lia.
Qed.

Lemma bit_test (top i : Z) :
  0 <= i -> (Z.land (Z.shiftr top i) 1 =? 0) = negb (Z.testbit top i).
Proof.
  intros Hi.
  change 1 with (Z.ones 1) at 1. rewrite Z.land_ones by lia.
  change (2 ^ 1) with 2. rewrite <- Z.bit0_mod, Z.shiftr_spec by lia.
  simpl. now destruct (Z.testbit top i).
Qed.

Lemma small_bits (n v i : Z) :
  0 <= v < 2 ^ n -> n <= i -> Z.testbit v i = false.
Proof.
  intros Hv Hi.
  destruct (Z.ltb_spec n 0) as [Hn | Hn].
  - rewrite Z.pow_neg_r in Hv by assumption. lia.
  - rewrite <- (Z.mod_small v (2 ^ n)) by assumption.
    apply Z.mod_pow2_bits_high. lia.
Qed.

End Bits.

(** ** The checksum register *)

Section Register.

Lemma range_5 : Py.range 5 = [0; 1; 2; 3; 4].
Proof. reflexivity. Qed.

(** The word the inner loop folds into the register: the generators
    selected by the bits of [top]. *)
Definition gen_word (top : Z) : Z := gen_loop 5 top 0.

(** The register after a value [0]: what [polymod_step] does to the
    register alone. *)
Definition advance (chk : Z) : Z := polymod_step chk 0.

Lemma gen_turn_bit (top chk i : Z) :
  0 <= i ->
  gen_turn top chk i =
  Z.lxor chk (if Z.testbit top i then nth (Z.to_nat i) GENERATORS 0 else 0).
Proof.
  intros Hi. unfold gen_turn. rewrite bit_test by assumption.
  destruct (Z.testbit top i); simpl negb; cbv iota.
  - reflexivity.
  - now rewrite Z.lxor_0_r.
Qed.

Lemma gen_loop_prefix (k top chk : Z) :
  0 <= k <= 5 ->
  gen_loop k top chk =
  Z.lxor chk (gen_loop k top 0).
Proof.
  intros Hk. unfold gen_loop.
  assert (C : k = 0 \/ k = 1 \/ k = 2 \/ k = 3 \/ k = 4 \/ k = 5) by lia.
  destruct C as [-> | [-> | [-> | [-> | [-> | ->]]]]];
    cbv [Py.range seq map Z.to_nat Pos.to_nat Pos.iter_op Nat.add Z.of_nat fold_left];
    rewrite ?gen_turn_bit by lia;
    rewrite ?Z.lxor_0_l, ?Z.lxor_0_r, ?Z.lxor_assoc; reflexivity.
Qed.

Lemma gen_loop_word (top chk : Z) :
  gen_loop 5 top chk = Z.lxor chk (gen_word top).
Proof. apply gen_loop_prefix. lia. Qed.

Lemma polymod_step_advance (chk v : Z) :
  polymod_step chk v = Z.lxor (advance chk) v.
Proof.
  unfold advance, polymod_step. cbv zeta.
  rewrite (gen_loop_word _ (Z.lxor _ v)), (gen_loop_word _ (Z.lxor _ 0)).
  rewrite Z.lxor_0_r, !Z.lxor_assoc. f_equal. apply Z.lxor_comm.
Qed.

Lemma GENERATORS_30bit (i : nat) : 0 <= nth i GENERATORS 0 < 2 ^ 30.
Proof.
  do 5 (destruct i as [ | i]; [ simpl; lia | ]).
  destruct i; simpl; lia.
Qed.

Lemma gen_turn_30bit (top chk i : Z) :
  0 <= chk < 2 ^ 30 -> 0 <= gen_turn top chk i < 2 ^ 30.
Proof.
  intros Hc. unfold gen_turn.
  destruct (_ =? 0); [ assumption | ].
  apply lxor_bound; [ lia | assumption | apply GENERATORS_30bit ].
Qed.

Lemma gen_loop_30bit (k top chk : Z) :
  0 <= chk < 2 ^ 30 -> 0 <= gen_loop k top chk < 2 ^ 30.
Proof.
  unfold gen_loop. generalize (Py.range k) as l. intros l. revert chk.
  induction l as [ | i l IH]; intros chk Hc; simpl.
  - assumption.
  - apply IH, gen_turn_30bit, Hc.
Qed.

(** The register as the outer loop first writes it, before the inner
    loop runs. *)
Definition shifted (chk v : Z) : Z :=
  Z.lxor (Z.shiftl (Z.land chk 0x1ffffff) 5) v.

Lemma shifted_30bit (chk v : Z) :
  0 <= v < 32 -> 0 <= shifted chk v < 2 ^ 30.
Proof.
  intros Hv. unfold shifted. apply lxor_bound; [ lia | | lia ].
  change 0x1ffffff with (Z.ones 25). rewrite Z.land_ones by lia.
  rewrite Z.shiftl_mul_pow2 by lia.
  pose proof (Z.mod_pos_bound chk (2 ^ 25) ltac:(lia)). lia.
Qed.

Lemma polymod_step_30bit (chk v : Z) :
  0 <= v < 32 -> 0 <= polymod_step chk v < 2 ^ 30.
Proof.
  intros Hv. unfold polymod_step. cbv zeta.
  apply gen_loop_30bit, shifted_30bit, Hv.
Qed.

Definition value5 (v : Z) : Prop := 0 <= v < 32.

Lemma fold_step_30bit (values : list Z) (chk : Z) :
  Forall value5 values -> 0 <= chk < 2 ^ 30 ->
  0 <= fold_left polymod_step values chk < 2 ^ 30.
Proof.
  intros Hv. revert chk.
  induction Hv as [ | v values Hv _ IH]; intros chk Hc; simpl.
  - assumption.
  - apply IH, polymod_step_30bit, Hv.
Qed.

Lemma polymod_30bit (values : list Z) :
  Forall value5 values -> 0 <= polymod values < 2 ^ 30.
Proof. intros Hv. apply fold_step_30bit; [ assumption | lia ]. Qed.

Lemma polymod_app (xs ys : list Z) :
  polymod (xs ++ ys) = fold_left polymod_step ys (polymod xs).
Proof. unfold polymod. apply fold_left_app. Qed.

(** *** The register is linear over exclusive or *)

Lemma lxor_swap4 (x y z w : Z) :
  Z.lxor (Z.lxor x y) (Z.lxor z w) = Z.lxor (Z.lxor x z) (Z.lxor y w).
Proof.
  apply Z.bits_inj'; intros n _. rewrite !Z.lxor_spec.
  destruct (Z.testbit x n), (Z.testbit y n), (Z.testbit z n), (Z.testbit w n);
    reflexivity.
Qed.

Lemma gen_word_bits (top : Z) :
  gen_word top =
  fold_left (fun chk i =>
               Z.lxor chk (if Z.testbit top i then nth (Z.to_nat i) GENERATORS 0 else 0))
            [0; 1; 2; 3; 4] 0.
Proof.
  unfold gen_word, gen_loop. rewrite range_5. cbn [fold_left].
  now rewrite !gen_turn_bit by lia.
Qed.

Lemma gen_word_lxor (a b : Z) :
  gen_word (Z.lxor a b) = Z.lxor (gen_word a) (gen_word b).
Proof.
  rewrite !gen_word_bits. cbn [fold_left]. rewrite !Z.lxor_spec.
  destruct (Z.testbit a 0), (Z.testbit a 1), (Z.testbit a 2),
    (Z.testbit a 3), (Z.testbit a 4);
  destruct (Z.testbit b 0), (Z.testbit b 1), (Z.testbit b 2),
    (Z.testbit b 3), (Z.testbit b 4); reflexivity.
Qed.

Lemma advance_eq (chk : Z) :
  advance chk =
  Z.lxor (Z.shiftl (Z.land chk 0x1ffffff) 5) (gen_word (Z.shiftr chk 25)).
Proof.
  unfold advance, polymod_step. cbv zeta.
  now rewrite gen_loop_word, Z.lxor_0_r.
Qed.

Lemma advance_lxor (a b : Z) :
  advance (Z.lxor a b) = Z.lxor (advance a) (advance b).
Proof.
  rewrite !advance_eq, land_lxor_l, Z.shiftl_lxor, Z.shiftr_lxor, gen_word_lxor.
  apply lxor_swap4.
Qed.

Lemma advance_small (x : Z) : 0 <= x < 2 ^ 25 -> advance x = x * 32.
Proof.
  intros Hx. rewrite advance_eq.
  change 0x1ffffff with (Z.ones 25).
  rewrite Z.land_ones, Z.mod_small, Z.shiftr_div_pow2, Z.div_small by lia.
  change (gen_word 0) with 0.
  now rewrite Z.lxor_0_r, Z.shiftl_mul_pow2 by lia.
Qed.

Lemma lxor_low5 (x v : Z) :
  0 <= v < 32 -> Z.lxor (x * 32) v = x * 32 + v.
Proof.
  intros Hv. symmetry. apply Z.add_nocarry_lxor.
  change 32 with (2 ^ 5) at 1. rewrite <- Z.shiftl_mul_pow2 by lia.
  apply Z.bits_inj'; intros n Hn.
  rewrite Z.land_spec, Z.bits_0.
  destruct (Z.ltb_spec n 5) as [L | L].
  - now rewrite Z.shiftl_spec_low.
  - rewrite (small_bits 5 v n) by (simpl; lia). apply andb_false_r.
Qed.

(** *** The register loses nothing: [advance] is one to one on 30 bits *)

Definition low5_kernel_check : bool :=
  forallb (fun t => (t =? 0) || negb (Z.land (gen_word t) 31 =? 0)) (Py.range 32).

Lemma gen_word_low5 (top : Z) :
  0 <= top < 32 -> Z.land (gen_word top) 31 = 0 -> top = 0.
Proof.
  intros Ht E.
  assert (C : low5_kernel_check = true) by (vm_compute; reflexivity).
  assert (I : In top (Py.range 32)).
  { unfold Py.range. apply in_map_iff. exists (Z.to_nat top).
    split; [ lia | apply in_seq; lia ]. }
  unfold low5_kernel_check in C. rewrite forallb_forall in C.
  specialize (C top I). rewrite E in C.
  change (negb (0 =? 0)) with false in C.
  rewrite orb_false_r in C. now apply Z.eqb_eq.
Qed.

Lemma advance_kernel (c : Z) : 0 <= c < 2 ^ 30 -> advance c = 0 -> c = 0.
Proof.
  intros Hc E. rewrite advance_eq in E.
  assert (Ht : 0 <= Z.shiftr c 25 < 32).
  { rewrite Z.shiftr_div_pow2 by lia. split.
    - apply Z.div_pos; lia.
    - apply Z.div_lt_upper_bound; lia. }
  assert (T : Z.shiftr c 25 = 0).
  { apply gen_word_low5; [ assumption | ].
    apply (f_equal (fun z => Z.land z 31)) in E.
    rewrite land_lxor_l in E.
    replace (Z.land (Z.shiftl (Z.land c 33554431) 5) 31) with 0 in E.
    - now rewrite Z.lxor_0_l in E.
    - symmetry. apply Z.bits_inj'; intros n Hn.
      rewrite Z.land_spec, Z.bits_0.
      destruct (Z.ltb_spec n 5) as [L | L].
      + now rewrite Z.shiftl_spec_low.
      + rewrite (small_bits 5 31 n) by (simpl; lia). apply andb_false_r. }
  rewrite T in E. change (gen_word 0) with 0 in E.
  rewrite Z.lxor_0_r in E. apply Z.shiftl_eq_0_iff in E; [ | lia ].
  change 33554431 with (Z.ones 25) in E. rewrite Z.land_ones in E by lia.
  rewrite Z.shiftr_div_pow2 in T by lia.
  pose proof (Z.div_mod c (2 ^ 25) ltac:(lia)). lia.
Qed.

Lemma advance_inj (a b : Z) :
  0 <= a < 2 ^ 30 -> 0 <= b < 2 ^ 30 -> advance a = advance b -> a = b.
Proof.
  intros Ha Hb E. apply Z.lxor_eq, advance_kernel.
  - apply lxor_bound; [ lia | assumption | assumption ].
  - now rewrite advance_lxor, E, Z.lxor_nilpotent.
Qed.

Lemma polymod_step_inj (a b v : Z) :
  0 <= a < 2 ^ 30 -> 0 <= b < 2 ^ 30 ->
  polymod_step a v = polymod_step b v -> a = b.
Proof.
  intros Ha Hb E. rewrite !polymod_step_advance in E.
  apply advance_inj; try assumption.
  apply (f_equal (fun z => Z.lxor z v)) in E.
  now rewrite !Z.lxor_assoc, Z.lxor_nilpotent, !Z.lxor_0_r in E.
Qed.

Lemma fold_step_inj (values : list Z) (a b : Z) :
  Forall value5 values -> 0 <= a < 2 ^ 30 -> 0 <= b < 2 ^ 30 ->
  fold_left polymod_step values a = fold_left polymod_step values b -> a = b.
Proof.
  intros Hv. revert a b.
  induction Hv as [ | v values Hv _ IH]; intros a b Ha Hb E; simpl in E.
  - assumption.
  - apply (polymod_step_inj a b v); try assumption.
    apply IH; try assumption; apply polymod_step_30bit, Hv.
Qed.

End Register.

(** ** Strings *)

Section Strings.

Definition in_range (c : Z) : Prop := 33 <= c <= 126.

Definition ascii (c : Z) : Prop := 0 <= c < 128.

(** The case maps on ASCII, where each character has one image. *)
Definition lower_char (c : Z) : Z := if Py.is_upper c then c + 32 else c.
Definition upper_char (c : Z) : Z := if Py.is_lower c then c - 32 else c.

Lemma eqb_eq (s t : Py.str) : Py.eqb s t = true <-> s = t.
Proof.
  revert t. induction s as [ | x s IH]; intros [ | y t]; simpl;
    try (split; [ discriminate | congruence ]).
  - tauto.
  - rewrite andb_true_iff, Z.eqb_eq, IH. split.
    + now intros [-> ->].
    + intros E. now inversion E.
Qed.

Lemma eqb_refl (s : Py.str) : Py.eqb s s = true.
Proof. now apply eqb_eq. Qed.

Lemma in_range_ascii (c : Z) : in_range c -> ascii c.
Proof. unfold in_range, ascii. lia. Qed.

Lemma range_check (s : Py.str) :
  existsb out_of_range s = false <-> Forall in_range s.
Proof.
  induction s as [ | x s IH]; simpl.
  - split; [ constructor | reflexivity ].
  - rewrite orb_false_iff, IH. unfold out_of_range, Py.ord, in_range.
    split.
    + intros [H1 H2]. constructor; [ lia | assumption ].
    + intros H. inversion H; subst. split; [ lia | assumption ].
Qed.

Lemma lower_cp_ascii (c : Z) : ascii c -> Py.lower_cp c = [lower_char c].
Proof.
  unfold ascii, Py.lower_cp, lower_char. intros Hc.
  destruct (Py.is_upper c); [ reflexivity | ].
  destruct (Z.eqb_spec c 0x212A); [ lia | reflexivity ].
Qed.

Lemma upper_cp_ascii (c : Z) : ascii c -> Py.upper_cp c = [upper_char c].
Proof.
  unfold ascii, Py.upper_cp, upper_char. intros Hc.
  destruct (Py.is_lower c); [ reflexivity | ].
  destruct (Z.eqb_spec c 0xDF); [ lia | ].
  destruct (Z.eqb_spec c 0x131); [ lia | ].
  destruct (Z.eqb_spec c 0x17F); [ lia | reflexivity ].
Qed.

Lemma lower_ascii (s : Py.str) :
  Forall ascii s -> Py.lower s = map lower_char s.
Proof.
  induction 1 as [ | c s Hc _ IH]; [ reflexivity | ].
  unfold Py.lower in *. simpl. now rewrite lower_cp_ascii, IH.
Qed.

Lemma upper_ascii (s : Py.str) :
  Forall ascii s -> Py.upper s = map upper_char s.
Proof.
  induction 1 as [ | c s Hc _ IH]; [ reflexivity | ].
  unfold Py.upper in *. simpl. now rewrite upper_cp_ascii, IH.
Qed.

Lemma lower_char_cases (c : Z) :
  (65 <= c <= 90 /\ lower_char c = c + 32) \/
  (~ 65 <= c <= 90 /\ lower_char c = c).
Proof.
  unfold lower_char, Py.is_upper.
  destruct (Z.leb_spec 65 c), (Z.leb_spec c 90); simpl; lia.
Qed.

Lemma upper_char_cases (c : Z) :
  (97 <= c <= 122 /\ upper_char c = c - 32) \/
  (~ 97 <= c <= 122 /\ upper_char c = c).
Proof.
  unfold upper_char, Py.is_lower.
  destruct (Z.leb_spec 97 c), (Z.leb_spec c 122); simpl; lia.
Qed.

Ltac case_chars :=
  repeat match goal with
    | |- context [lower_char ?c] =>
        let H := fresh in
        destruct (lower_char_cases c) as [[? H] | [? H]]; rewrite H in *; clear H
    | |- context [upper_char ?c] =>
        let H := fresh in
        destruct (upper_char_cases c) as [[? H] | [? H]]; rewrite H in *; clear H
    end.

Lemma lower_char_ascii (c : Z) : ascii c -> ascii (lower_char c).
Proof. unfold ascii. case_chars; lia. Qed.

Lemma upper_char_ascii (c : Z) : ascii c -> ascii (upper_char c).
Proof. unfold ascii. case_chars; lia. Qed.

Lemma lower_char_idem (c : Z) : lower_char (lower_char c) = lower_char c.
Proof. case_chars; lia. Qed.

Lemma upper_char_idem (c : Z) : upper_char (upper_char c) = upper_char c.
Proof. case_chars; lia. Qed.

Lemma lower_upper_char (c : Z) : lower_char (upper_char c) = lower_char c.
Proof. case_chars; lia. Qed.

Lemma lower_char_out (c : Z) : out_of_range (lower_char c) = out_of_range c.
Proof.
  unfold out_of_range, Py.ord. case_chars;
    repeat match goal with
      | |- context [?a <? ?b] => destruct (Z.ltb_spec a b)
      | |- context [?a >? ?b] => rewrite (Z.gtb_ltb a b)
      end; simpl; try reflexivity; lia.
Qed.

Lemma upper_char_out (c : Z) : out_of_range (upper_char c) = out_of_range c.
Proof.
  unfold out_of_range, Py.ord. case_chars;
    repeat match goal with
      | |- context [?a <? ?b] => destruct (Z.ltb_spec a b)
      | |- context [?a >? ?b] => rewrite (Z.gtb_ltb a b)
      end; simpl; try reflexivity; lia.
Qed.

Lemma Forall_map_ascii (f : Z -> Z) (s : Py.str) :
  (forall c, ascii c -> ascii (f c)) -> Forall ascii s -> Forall ascii (map f s).
Proof.
  intros Hf Hs. induction Hs; simpl; constructor; auto.
Qed.

(** *** [rfind] finds the last occurrence *)

Lemma rfind_bounds (c : Z) (s : Py.str) : -1 <= Py.rfind c s < Py.len s.
Proof.
  unfold Py.len. induction s as [ | x s IH]; simpl Py.rfind.
  - simpl. lia.
  - rewrite length_cons.
    destruct (Z.leb_spec 0 (Py.rfind c s)); [ lia | ].
    destruct (x =? c); lia.
Qed.

Lemma rfind_absent (c : Z) (s : Py.str) : Py.rfind c s < 0 <-> ~ In c s.
Proof.
  induction s as [ | x s IH]; simpl.
  - split; [ tauto | lia ].
  - pose proof (rfind_bounds c s) as B.
    destruct (Z.leb_spec 0 (Py.rfind c s)) as [L | L].
    + split; [ lia | ]. intros N. exfalso. apply N. right.
      destruct (in_dec Z.eq_dec c s) as [I | I]; [ assumption | ].
      apply IH in I. lia.
    + destruct (Z.eqb_spec x c) as [-> | N].
      * split; [ lia | ]. intros H. exfalso. apply H. now left.
      * split; [ | lia ]. intros _ [E | I]; [ congruence | ].
        now apply IH in I.
Qed.

Lemma rfind_separator (c : Z) (h t : Py.str) :
  ~ In c t -> Py.rfind c (h ++ c :: t) = Py.len h.
Proof.
  intros N. unfold Py.len. induction h as [ | x h IH]; simpl Py.rfind.
  - apply rfind_absent in N. pose proof (rfind_bounds c t).
    destruct (Z.leb_spec 0 (Py.rfind c t)); [ lia | ].
    now rewrite Z.eqb_refl.
  - rewrite IH, length_cons.
    destruct (Z.leb_spec 0 (Z.of_nat (Datatypes.length h))); lia.
Qed.

Lemma rfind_split (c : Z) (s : Py.str) :
  0 <= Py.rfind c s ->
  exists h t, s = h ++ c :: t /\ ~ In c t /\ Py.rfind c s = Py.len h.
Proof.
  induction s as [ | x s IH]; simpl Py.rfind.
  - lia.
  - destruct (Z.leb_spec 0 (Py.rfind c s)) as [L | L].
    + intros _. destruct (IH L) as (h & t & E & N & P).
      exists (x :: h), t. rewrite E at 1. repeat split; try assumption.
      rewrite P. unfold Py.len. rewrite length_cons. lia.
    + destruct (Z.eqb_spec x c) as [-> | N]; [ | lia ].
      intros _. exists [], s. repeat split. now apply rfind_absent.
Qed.

Lemma slice_split {A} (h t : list A) (x : A) :
  Py.slice_to (h ++ x :: t) (Py.len h) = h /\
  Py.slice_from (h ++ x :: t) (Py.len h + 1) = t.
Proof.
  unfold Py.slice_to, Py.slice_from, Py.len.
  destruct (Z.ltb_spec (Z.of_nat (Datatypes.length h)) 0); [ lia | ].
  destruct (Z.ltb_spec (Z.of_nat (Datatypes.length h) + 1) 0); [ lia | ].
  rewrite Nat2Z.id.
  replace (Z.to_nat (Z.of_nat (Datatypes.length h) + 1)) with (Datatypes.length h + 1)%nat by lia.
  split.
  - rewrite firstn_app, firstn_all, Nat.sub_diag. simpl. apply app_nil_r.
  - rewrite skipn_app, skipn_all2 by lia.
    replace (Datatypes.length h + 1 - Datatypes.length h)%nat with 1%nat by lia.
    reflexivity.
Qed.

End Strings.

(** ** The alphabet *)

Section Alphabet.

(** [CHARSET[v]] and [CHARSET_MAP[ch]] ([None] when [ch not in
    CHARSET_MAP]). *)
Definition charset_at (v : Z) : Z := nth (Z.to_nat v) CHARSET 0.

Definition value_of (ch : Z) : option Z := Py.dict_get CHARSET_MAP ch.

Lemma value5_cases (f : Z -> bool) :
  forallb f (Py.range 32) = true -> forall v, value5 v -> f v = true.
Proof.
  intros C v Hv. rewrite forallb_forall in C. apply C.
  unfold Py.range. apply in_map_iff. exists (Z.to_nat v).
  unfold value5 in Hv. split; [ lia | apply in_seq; lia ].
Qed.

Lemma dict_get_In {V} (d : Py.dict V) (k : Z) (v : V) :
  Py.dict_get d k = Some v -> In (k, v) d.
Proof.
  induction d as [ | [k' v'] d IH]; simpl; [ discriminate | ].
  destruct (Z.eqb_spec k' k) as [-> | N].
  - intros [= ->]. now left.
  - intros H. right. now apply IH.
Qed.

Lemma value_of_charset_at (v : Z) :
  value5 v -> value_of (charset_at v) = Some v.
Proof.
  intros Hv.
  apply (value5_cases
           (fun v => match value_of (charset_at v) with
                     | Some w => w =? v
                     | None => false
                     end)) in Hv; [ | vm_compute; reflexivity ].
  destruct (value_of (charset_at v)); [ | discriminate ].
  apply Z.eqb_eq in Hv. now subst.
Qed.

Lemma value_of_inv (ch v : Z) :
  value_of ch = Some v -> value5 v /\ ch = charset_at v.
Proof.
  intros H. apply dict_get_In in H.
  vm_compute in H. unfold value5.
  repeat (destruct H as [H | H];
          [ inversion H; subst; split; [ lia | reflexivity ] | ]).
  destruct H.
Qed.

(** The symbols are printable lowercase letters and digits, and none is
    the separator. *)
Lemma charset_at_shape (v : Z) :
  value5 v ->
  in_range (charset_at v) /\ charset_at v <> 49 /\
  lower_char (charset_at v) = charset_at v.
Proof.
  intros Hv.
  apply (value5_cases
           (fun v => (33 <=? charset_at v) && (charset_at v <=? 126)
                     && negb (charset_at v =? 49)
                     && (lower_char (charset_at v) =? charset_at v))) in Hv;
    [ | vm_compute; reflexivity ].
  rewrite !andb_true_iff, negb_true_iff, Z.eqb_neq, Z.eqb_eq in Hv.
  unfold in_range. repeat split; try tauto; lia.
Qed.

Lemma charset_at_inj (v w : Z) :
  value5 v -> value5 w -> charset_at v = charset_at w -> v = w.
Proof.
  intros Hv Hw E. apply value_of_charset_at in Hv, Hw.
  rewrite E in Hv. congruence.
Qed.

(** The loop over [data_part] reads every character in [CHARSET_MAP], or
    stops at the first one that is absent. *)
Definition reads (part : Py.str) (data : list Z) : Prop :=
  Forall2 (fun ch v => value_of ch = Some v) part data.

Lemma data_loop_reads (part : Py.str) (acc data : list Z) :
  reads part data -> data_loop part acc = Ok (acc ++ data).
Proof.
  intros R. revert acc.
  induction R as [ | ch v part data H _ IH]; intros acc; cbn [data_loop].
  - now rewrite app_nil_r.
  - change (Py.dict_get CHARSET_MAP ch) with (value_of ch). rewrite H, IH, <- app_assoc. reflexivity.
Qed.

Lemma data_loop_Ok (part : Py.str) (acc out : list Z) :
  data_loop part acc = Ok out ->
  exists data, out = acc ++ data /\ reads part data.
Proof.
  revert acc. induction part as [ | ch part IH]; intros acc; cbn [data_loop].
  - intros [= <-]. exists []. split; [ now rewrite app_nil_r | constructor ].
  - change (Py.dict_get CHARSET_MAP ch) with (value_of ch). destruct (value_of ch) as [v | ] eqn:E; [ | discriminate ].
    intros H. destruct (IH _ H) as (data & -> & R).
    exists (v :: data). split; [ now rewrite <- app_assoc | now constructor ].
Qed.

Lemma data_loop_Raise (part : Py.str) (acc : list Z) (e : ValueError) :
  data_loop part acc = Raise e ->
  exists ch, e = InvalidCharacter ch /\ In ch part /\ value_of ch = None.
Proof.
  revert acc. induction part as [ | ch part IH]; intros acc; cbn [data_loop].
  - discriminate.
  - change (Py.dict_get CHARSET_MAP ch) with (value_of ch). destruct (value_of ch) as [v | ] eqn:E.
    + intros H. destruct (IH _ H) as (c & -> & I & N).
      exists c. repeat split; [ now right | assumption ].
    + intros [= <-]. exists ch. repeat split; [ now left | assumption ].
Qed.

Lemma reads_length (part : Py.str) (data : list Z) :
  reads part data -> List.length data = List.length part.
Proof. intros R. symmetry. exact (Forall2_length R). Qed.

Lemma reads_value5 (part : Py.str) (data : list Z) :
  reads part data -> Forall value5 data.
Proof.
  induction 1 as [ | ch v part data H _ IH]; constructor; [ | assumption ].
  now apply value_of_inv in H.
Qed.

Lemma reads_fun (part : Py.str) (d1 d2 : list Z) :
  reads part d1 -> reads part d2 -> d1 = d2.
Proof.
  intros R. revert d2. induction R as [ | ch v part data H _ IH]; intros d2 R2.
  - now inversion R2.
  - inversion R2; subst. f_equal; [ congruence | now apply IH ].
Qed.

Lemma reads_symbols (data : list Z) :
  Forall value5 data -> reads (map charset_at data) data.
Proof.
  induction 1 as [ | v data Hv _ IH]; simpl; constructor; [ | assumption ].
  now apply value_of_charset_at.
Qed.

End Alphabet.

(** ** The shape of [bech32_decode] *)

Section Decode.

(** The value [bech32_decode] returns for the prefix [hrp] and the data
    values [data]. *)
Definition report (hrp : Py.str) (data : list Z) : decoded :=
  let pm := polymod (hrp_expand hrp ++ data) in
  Decoded hrp data pm (pm =? 1).

Lemma bad_separator_false (pos : Z) (bech : Py.str) :
  bad_separator pos bech = false <-> 1 <= pos /\ pos + 7 <= Py.len bech.
Proof.
  unfold bad_separator. rewrite orb_false_iff, Z.gtb_ltb, !Z.ltb_ge. tauto.
Qed.

Lemma bad_separator_true (pos : Z) (bech : Py.str) :
  bad_separator pos bech = true <-> pos < 1 \/ Py.len bech < pos + 7.
Proof.
  unfold bad_separator. rewrite orb_true_iff, Z.gtb_ltb, !Z.ltb_lt. tauto.
Qed.

Lemma len_app_cons (h t : Py.str) (x : Z) :
  Py.len (h ++ x :: t) = Py.len h + 1 + Py.len t.
Proof. unfold Py.len. rewrite length_app, length_cons. lia. Qed.

Lemma decode_intro (s hrp part : Py.str) (data : list Z) :
  Forall in_range s -> mixed_case s = false ->
  Py.lower s = hrp ++ 49 :: part -> ~ In 49 part ->
  hrp <> [] -> 6 <= Py.len part -> reads part data ->
  bech32_decode s = Ok (report hrp data).
Proof.
  intros Hr Hm El Hn Hh Hp Hd. unfold bech32_decode.
  apply range_check in Hr. rewrite Hr, Hm. cbv zeta.
  rewrite El, (rfind_separator 49 hrp part Hn).
  assert (B : bad_separator (Py.len hrp) (hrp ++ 49 :: part) = false).
  { apply bad_separator_false. rewrite len_app_cons.
    assert (0 < Py.len hrp); [ | lia ].
    destruct hrp; [ congruence | ]. unfold Py.len. rewrite length_cons. lia. }
  rewrite B. destruct (slice_split hrp part 49) as [-> ->].
  rewrite (data_loop_reads part [] data Hd). reflexivity.
Qed.

Lemma decode_Ok_inv (s : Py.str) (r : decoded) :
  bech32_decode s = Ok r ->
  Forall in_range s /\ mixed_case s = false /\
  exists part,
    Py.lower s = d_hrp r ++ 49 :: part /\ ~ In 49 part /\
    Py.rfind 49 (Py.lower s) = Py.len (d_hrp r) /\
    d_hrp r <> [] /\ 6 <= Py.len part /\ reads part (d_data r) /\
    r = report (d_hrp r) (d_data r).
Proof.
  unfold bech32_decode.
  destruct (existsb out_of_range s) eqn:Hr; [ discriminate | ].
  destruct (mixed_case s) eqn:Hm; [ discriminate | ]. cbv zeta.
  destruct (bad_separator _ _) eqn:B; [ discriminate | ].
  apply bad_separator_false in B. destruct B as [B1 B2].
  destruct (rfind_split 49 (Py.lower s)) as (h & t & El & Hn & P); [ lia | ].
  rewrite P in *. rewrite El in *.
  destruct (slice_split h t 49) as [-> ->].
  destruct (data_loop t []) as [out | e] eqn:L; [ | discriminate ].
  simpl bind. intros [= <-]. simpl d_hrp. simpl d_data.
  apply data_loop_Ok in L. destruct L as (data & -> & R). simpl app.
  split; [ now apply range_check | ]. split; [ reflexivity | ].
  exists t. rewrite len_app_cons in B2.
  repeat split; try assumption; try lia.
  intros ->. unfold Py.len in B1. simpl in B1. lia.
Qed.

(** Every exception of [bech32_decode] is one of the four structural
    checks failing, in their order. *)
Lemma decode_Raise_inv (s : Py.str) (e : ValueError) :
  bech32_decode s = Raise e ->
  (e = InvalidCharRange /\ ~ Forall in_range s) \/
  (e = MixedCase /\ Forall in_range s /\ mixed_case s = true) \/
  (e = InvalidSeparatorPosition /\ Forall in_range s /\ mixed_case s = false /\
   bad_separator (Py.rfind 49 (Py.lower s)) (Py.lower s) = true) \/
  (exists ch, e = InvalidCharacter ch /\ Forall in_range s /\
     mixed_case s = false /\
     bad_separator (Py.rfind 49 (Py.lower s)) (Py.lower s) = false /\
     In ch (Py.slice_from (Py.lower s) (Py.rfind 49 (Py.lower s) + 1)) /\
     value_of ch = None).
Proof.
  unfold bech32_decode.
  destruct (existsb out_of_range s) eqn:Hr.
  { intros [= <-]. left. split; [ reflexivity | ].
    intros F. apply range_check in F. congruence. }
  apply range_check in Hr.
  destruct (mixed_case s) eqn:Hm.
  { intros [= <-]. right. left. auto. }
  cbv zeta. destruct (bad_separator _ _) eqn:B.
  { intros [= <-]. right. right. left. auto. }
  destruct (data_loop _ []) as [out | e'] eqn:L; simpl bind; [ discriminate | ].
  intros [= <-]. apply data_loop_Raise in L. destruct L as (ch & -> & I & N).
  right. right. right. exists ch. auto 7.
Qed.

(** The values [hrp_expand] makes of a printable prefix are 5-bit. *)
Lemma hrp_expand_value5 (hrp : Py.str) :
  Forall ascii hrp -> Forall value5 (hrp_expand hrp).
Proof.
  intros H. unfold hrp_expand. rewrite !Forall_app. repeat split.
  - apply Forall_map. eapply Forall_impl; [ | exact H ].
    intros c Hc. unfold value5, Py.ord, ascii in *.
    rewrite Z.shiftr_div_pow2 by lia. split.
    + apply Z.div_pos; lia.
    + apply Z.div_lt_upper_bound; lia.
  - constructor; [ unfold value5; lia | constructor ].
  - apply Forall_map. eapply Forall_impl; [ | exact H ].
    intros c Hc. unfold value5, Py.ord.
    change 31 with (Z.ones 5). rewrite Z.land_ones by lia.
    apply Z.mod_pos_bound. lia.
Qed.

End Decode.

(** ** The checksum register stays within 30 bits *)

(** C9: for every finite sequence of integers [v] with [0 <= v < 32],
    [polymod values] lies in [[0, 2^30)], and so does every state of the
    accumulator on the way: the register after each prefix of the values,
    the register as shifted and combined with the next value, and the
    register after each turn of the loop over the generators (whose last
    turn gives the register after the longer prefix). *)
Theorem polymod_fits_30_bits (values : list Z) :
  Forall (fun v => 0 <= v < 32) values ->
  0 <= polymod values < 2 ^ 30 /\
  (forall pre post, values = pre ++ post -> 0 <= polymod pre < 2 ^ 30) /\
  (forall pre v post k, values = pre ++ v :: post -> 0 <= k <= 5 ->
     let chk := polymod pre in
     let top := Z.shiftr chk 25 in
     let chk' := Z.lxor (Z.shiftl (Z.land chk 0x1ffffff) 5) v in
     0 <= top < 32 /\
     0 <= chk' < 2 ^ 30 /\
     0 <= gen_loop k top chk' < 2 ^ 30 /\
     gen_loop 5 top chk' = polymod (pre ++ [v])).
Proof.
  intros Hv. split; [ now apply polymod_30bit | ]. split.
  - intros pre post ->. apply Forall_app in Hv. now apply polymod_30bit.
  - intros pre v post k -> Hk. cbv zeta.
    apply Forall_app in Hv. destruct Hv as [Hpre Hv].
    inversion Hv as [ | ? ? Hv5 _]; subst.
    pose proof (polymod_30bit pre Hpre) as Hc.
    pose proof (shifted_30bit (polymod pre) v Hv5) as Hs. unfold shifted in Hs.
    repeat split; try apply gen_loop_30bit; try apply Hs.
    + rewrite Z.shiftr_div_pow2 by lia. apply Z.div_pos; lia.
    + rewrite Z.shiftr_div_pow2 by lia. apply Z.div_lt_upper_bound; lia.
    + now rewrite polymod_app.
Qed.

Lemma polymod_fits_30_bits_witness :
  Forall (fun v => 0 <= v < 32) [3; 3; 0; 2; 3] /\
  0 <= polymod [3; 3; 0; 2; 3] < 2 ^ 30.
Proof.
  assert (H : Forall (fun v => 0 <= v < 32) [3; 3; 0; 2; 3])
    by (repeat constructor; lia).
  split; [ exact H | exact (proj1 (polymod_fits_30_bits _ H)) ].
Defined.

(** ** The structural checks, in their order *)

(** C10: on the empty string the character-range check and the
    mixed-case check both pass, the search for the separator answers
    [-1], and [bech32_decode] raises ['invalid separator position']. *)
Theorem decode_empty_string :
  existsb out_of_range [] = false /\
  mixed_case [] = false /\
  Py.rfind 49 (Py.lower []) = -1 /\
  bech32_decode [] = Raise InvalidSeparatorPosition.
Proof. repeat split. Qed.

Lemma map_fixed (f : Z -> Z) (s : Py.str) :
  map f s = s -> forall c, In c s -> f c = c.
Proof.
  induction s as [ | x s IH]; simpl; [ tauto | ].
  intros [= E1 E2] c [<- | I]; [ assumption | now apply IH ].
Qed.

Lemma mixed_case_false (s : Py.str) :
  mixed_case s = false <-> Py.lower s = s \/ Py.upper s = s.
Proof.
  unfold mixed_case. rewrite andb_false_iff, !negb_false_iff, !eqb_eq. tauto.
Qed.

Lemma mixed_case_true (s : Py.str) :
  mixed_case s = true <-> Py.lower s <> s /\ Py.upper s <> s.
Proof.
  unfold mixed_case. rewrite andb_true_iff, !negb_true_iff.
  rewrite <- !not_true_iff_false, !eqb_eq. tauto.
Qed.

(** C7: a string whose characters all lie in [[33, 126]] and which holds
    an uppercase letter and a lowercase letter differs from its lowercase
    and from its uppercase form, and [bech32_decode] raises ['mixed case']
    on it, whatever its separators and its other characters are: nothing
    of the alphabet or of the checksum is looked at. *)
Theorem mixed_case_rejected (s : Py.str) :
  Forall (fun c => 33 <= c <= 126) s ->
  (exists c, In c s /\ 65 <= c <= 90) ->
  (exists c, In c s /\ 97 <= c <= 122) ->
  Py.lower s <> s /\ Py.upper s <> s /\
  bech32_decode s = Raise MixedCase.
Proof.
  intros Hr (u & Iu & Hu) (l & Il & Hl).
  assert (Ha : Forall ascii s).
  { eapply Forall_impl; [ | exact Hr ]. apply in_range_ascii. }
  assert (NL : Py.lower s <> s).
  { rewrite lower_ascii by assumption. intros E.
    pose proof (map_fixed _ _ E u Iu) as F.
    destruct (lower_char_cases u); lia. }
  assert (NU : Py.upper s <> s).
  { rewrite upper_ascii by assumption. intros E.
    pose proof (map_fixed _ _ E l Il) as F.
    destruct (upper_char_cases l); lia. }
  repeat split; try assumption.
  unfold bech32_decode.
  apply range_check in Hr. rewrite Hr.
  now rewrite (proj2 (mixed_case_true s) (conj NL NU)).
Qed.

Lemma mixed_case_rejected_witness :
  bech32_decode (Py.lit "Bc1Qw508d6qejxtdg4y5r3zarvary0c5xw7kygt080")
  = Raise MixedCase.
Proof.
  apply (mixed_case_rejected (Py.lit "Bc1Qw508d6qejxtdg4y5r3zarvary0c5xw7kygt080")).
  - repeat constructor; vm_compute; discriminate.
  - exists 66. split; [ vm_compute; tauto | lia ].
  - exists 99. split; [ vm_compute; tauto | lia ].
Defined.

(** ** The probe's own address *)

Definition probe_address : Py.str :=
  Py.lit "bc1qw508d6qejxtdg4y5r3zarvary0c5xw7kygt080".

(** C2, as the program has it: decoding
    ["bc1qw508d6qejxtdg4y5r3zarvary0c5xw7kygt080"] raises nothing and
    returns the prefix ["bc"] and 39 data values, with the raw checksum
    value 284260763 and [valid = false]. *)
Theorem decode_probe_address :
  exists data,
    bech32_decode probe_address = Ok (Decoded (Py.lit "bc") data 284260763 false) /\
    List.length data = 39%nat.
Proof. eexists. split; vm_compute; reflexivity. Qed.

(** C2, as stated, fails: the decoding of that string does not have
    [valid = true] and raw checksum value 1. *)
Lemma probe_address_not_valid :
  ~ (exists r, bech32_decode probe_address = Ok r /\
               d_hrp r = Py.lit "bc" /\ d_ok r = true /\ d_pm r = 1).
Proof.
  intros (r & H & _ & Hok & _). vm_compute in H.
  inversion H; subst. discriminate.
Qed.

(** ** A checksum mismatch is reported, not raised *)

(** The four structural checks, on the input itself. *)
Definition range_ok (s : Py.str) : Prop := Forall (fun c => 33 <= c <= 126) s.

Definition one_case (s : Py.str) : Prop := Py.lower s = s \/ Py.upper s = s.

Definition separator_ok (s : Py.str) : Prop :=
  let bech := Py.lower s in
  let pos := Py.rfind 49 bech in
  1 <= pos /\ 6 <= Py.len bech - (pos + 1).

Definition alphabet_ok (s : Py.str) : Prop :=
  let bech := Py.lower s in
  let pos := Py.rfind 49 bech in
  Forall (fun ch => In ch CHARSET) (Py.slice_from bech (pos + 1)).

Definition structurally_valid (s : Py.str) : Prop :=
  range_ok s /\ one_case s /\ separator_ok s /\ alphabet_ok s.

Lemma In_CHARSET (ch : Z) : In ch CHARSET <-> exists v, value_of ch = Some v.
Proof.
  split.
  - intros H. vm_compute in H.
    repeat (destruct H as [<- | H]; [ eexists; vm_compute; reflexivity | ]).
    destruct H.
  - intros (v & H). apply value_of_inv in H. destruct H as [Hv ->].
    apply (value5_cases
             (fun v => if in_dec Z.eq_dec (charset_at v) CHARSET then true else false))
      in Hv; [ | vm_compute; reflexivity ].
    now destruct (in_dec Z.eq_dec (charset_at v) CHARSET).
Qed.

Lemma structurally_valid_decodes (s : Py.str) :
  structurally_valid s <-> exists r, bech32_decode s = Ok r.
Proof.
  split.
  - intros (Hr & Hc & (P1 & P2) & Ha).
    destruct (bech32_decode s) as [r | e] eqn:D; [ now exists r | exfalso ].
    apply decode_Raise_inv in D.
    destruct D as [[_ N] | [(_ & _ & M) | [(_ & _ & _ & B) | (ch & _ & _ & _ & _ & I & N)]]].
    + now apply N.
    + apply mixed_case_true in M. destruct Hc; tauto.
    + apply bad_separator_true in B. lia.
    + unfold alphabet_ok in Ha. cbv zeta in Ha.
      rewrite Forall_forall in Ha. apply Ha, In_CHARSET in I.
      destruct I as (v & I). congruence.
  - intros (r & D). apply decode_Ok_inv in D.
    destruct D as (Hr & Hm & t & E & Hn & P & Hh & H6 & R & _).
    split; [ exact Hr | ]. split; [ now apply mixed_case_false | ].
    unfold separator_ok, alphabet_ok. cbv zeta. rewrite P, E, len_app_cons.
    destruct (slice_split (d_hrp r) t 49) as [_ ->].
    split.
    + assert (0 < Py.len (d_hrp r)); [ | lia ].
      destruct (d_hrp r); [ congruence | ].
      unfold Py.len. rewrite length_cons. lia.
    + clear - R. induction R; constructor; [ | assumption ].
      apply In_CHARSET. eauto.
Qed.

(** C4, with the example the program supports: on every input that
    passes the four structural checks [bech32_decode] returns, with
    [valid] telling whether the raw checksum value is 1, so that a
    checksum mismatch gives [valid = false] next to the decoded fields;
    and every exception it raises is one of the four structural checks
    failing.  So ["bc1qw508d6qejxtdg4y5r3zarvary0c5xw7kygt080"] is
    returned with [valid = false], while
    ["bc1qw508d6qejxtdg4y5r3zarvary0c5xw7kygt081"], whose last ['1'] is
    its last character, fails the separator check. *)
Theorem checksum_mismatch_is_reported :
  (forall s,
     structurally_valid s ->
     exists r, bech32_decode s = Ok r /\
               r = report (d_hrp r) (d_data r) /\
               (d_pm r <> 1 -> d_ok r = false) /\
               (d_pm r = 1 -> d_ok r = true)) /\
  (forall s e, bech32_decode s = Raise e -> ~ structurally_valid s) /\
  (structurally_valid probe_address /\
   exists r, bech32_decode probe_address = Ok r /\ d_ok r = false) /\
  (~ separator_ok (Py.lit "bc1qw508d6qejxtdg4y5r3zarvary0c5xw7kygt081") /\
   bech32_decode (Py.lit "bc1qw508d6qejxtdg4y5r3zarvary0c5xw7kygt081")
   = Raise InvalidSeparatorPosition).
Proof.
  split; [ | split; [ | split ] ].
  - intros s V. apply structurally_valid_decodes in V. destruct V as (r & D).
    exists r. split; [ assumption | ].
    apply decode_Ok_inv in D.
    destruct D as (_ & _ & t & _ & _ & _ & _ & _ & _ & E).
    split; [ exact E | ]. rewrite E. unfold report. cbv zeta. simpl.
    split.
    + now intros N%Z.eqb_neq.
    + now intros ->.
  - intros s e D V. apply structurally_valid_decodes in V.
    destruct V as (r & D'). congruence.
  - split.
    + apply structurally_valid_decodes. eexists. vm_compute. reflexivity.
    + eexists. split; vm_compute; reflexivity.
  - split; [ | vm_compute; reflexivity ].
    unfold separator_ok. vm_compute. intros [_ H]. now apply H.
Qed.

Lemma checksum_mismatch_is_reported_witness :
  structurally_valid probe_address /\
  exists r, bech32_decode probe_address = Ok r.
Proof.
  assert (V : structurally_valid probe_address).
  { apply structurally_valid_decodes. eexists. vm_compute. reflexivity. }
  split; [ exact V | ].
  destruct (proj1 checksum_mismatch_is_reported probe_address V) as (r & D & _).
  now exists r.
Defined.

(** C4, as stated, fails at its example: decoding
    ["bc1qw508d6qejxtdg4y5r3zarvary0c5xw7kygt081"] raises. *)
Lemma decode_trailing_one_raises :
  ~ (exists r, bech32_decode (Py.lit "bc1qw508d6qejxtdg4y5r3zarvary0c5xw7kygt081") = Ok r /\
               d_ok r = false).
Proof. intros (r & H & _). vm_compute in H. discriminate. Qed.

(** ** The separator *)

(** C6, for the inputs that reach the search for the separator: let [s]
    have passed the range and case checks, and let [pos] be what
    [rfind('1')] answers on its lowercase form: [-1] when that form has
    no ['1'], and otherwise the index of its last ['1'].  Then
    [bech32_decode] raises ['invalid separator position'] exactly when
    [pos < 1] or fewer than 6 characters follow [pos].  When neither is
    the case the lowercase form is split at [pos]: the decoder returns
    the characters before [pos] as prefix, with the values of the
    characters after [pos] as data, or else raises ['invalid char'] for
    one of the characters after [pos].  On ["bc"] it raises ['invalid
    separator position']. *)
Theorem separator_is_last_one :
  (forall s,
     range_ok s -> one_case s ->
     let bech := Py.lower s in
     let pos := Py.rfind 49 bech in
     ((pos = -1 /\ ~ In 49 bech) \/
      (exists h t, bech = h ++ 49 :: t /\ ~ In 49 t /\ pos = Py.len h)) /\
     (bech32_decode s = Raise InvalidSeparatorPosition <->
      pos < 1 \/ Py.len bech - (pos + 1) < 6) /\
     (1 <= pos -> 6 <= Py.len bech - (pos + 1) ->
      exists h t,
        bech = h ++ 49 :: t /\ ~ In 49 t /\ pos = Py.len h /\
        ((exists data,
            reads t data /\ bech32_decode s = Ok (report h data)) \/
         (exists ch,
            In ch t /\ ~ In ch CHARSET /\
            bech32_decode s = Raise (InvalidCharacter ch))))) /\
  (forall s r,
     bech32_decode s = Ok r ->
     exists t,
       Py.lower s = d_hrp r ++ 49 :: t /\ ~ In 49 t /\
       Py.rfind 49 (Py.lower s) = Py.len (d_hrp r) /\ reads t (d_data r)) /\
  bech32_decode (Py.lit "bc") = Raise InvalidSeparatorPosition.
Proof.
  split; [ | split; [ | reflexivity ] ].
  - intros s Hr Hc bech pos.
    change (Forall in_range s) in Hr. apply mixed_case_false in Hc.
    pose proof (proj2 (range_check s) Hr) as Xr.
    split; [ | split ].
    + pose proof (rfind_bounds 49 bech) as B. fold pos in B.
      destruct (Z.eq_dec pos (-1)) as [E | N].
      * left. split; [ assumption | ]. apply rfind_absent. fold pos. lia.
      * right. destruct (rfind_split 49 bech) as (h & t & E & Hn & P).
        -- fold pos. lia.
        -- exists h, t. auto.
    + unfold bech32_decode. rewrite Xr, Hc. cbv zeta. fold bech pos.
      destruct (bad_separator pos bech) eqn:B.
      * apply bad_separator_true in B. split; [ intros _; lia | reflexivity ].
      * apply bad_separator_false in B. split; [ | lia ].
        destruct (data_loop _ []) as [d | e] eqn:L; simpl bind;
          [ discriminate | ].
        apply data_loop_Raise in L. destruct L as (ch & -> & _). discriminate.
    + intros P1 P6.
      destruct (rfind_split 49 bech) as (h & t & E & Hn & P);
        [ fold pos; lia | ].
      fold pos in P. exists h, t.
      split; [ exact E | ]. split; [ exact Hn | ]. split; [ exact P | ].
      unfold bech32_decode. rewrite Xr, Hc. cbv zeta. fold bech pos.
      assert (B : bad_separator pos bech = false)
        by (apply bad_separator_false; lia).
      rewrite B, P, E. destruct (slice_split h t 49) as [-> ->].
      destruct (data_loop t []) as [d | e] eqn:L; simpl bind.
      * left. apply data_loop_Ok in L. destruct L as (data & -> & R).
        exists data. split; [ exact R | reflexivity ].
      * right. apply data_loop_Raise in L. destruct L as (ch & -> & I & N).
        exists ch. split; [ exact I | ]. split; [ | reflexivity ].
        rewrite In_CHARSET. intros (v & V). congruence.
  - intros s r H. apply decode_Ok_inv in H.
    destruct H as (_ & _ & t & E & Hn & P & _ & _ & R & _).
    exists t. auto.
Qed.

Lemma separator_is_last_one_witness :
  range_ok (Py.lit "a12uel5l") /\ one_case (Py.lit "a12uel5l") /\
  (bech32_decode (Py.lit "a12uel5l") = Raise InvalidSeparatorPosition <->
   Py.rfind 49 (Py.lower (Py.lit "a12uel5l")) < 1 \/
   Py.len (Py.lower (Py.lit "a12uel5l"))
   - (Py.rfind 49 (Py.lower (Py.lit "a12uel5l")) + 1) < 6).
Proof.
  assert (Hr : range_ok (Py.lit "a12uel5l")).
  { unfold range_ok. change (Py.lit "a12uel5l")
      with [97; 49; 50; 117; 101; 108; 53; 108].
    repeat (apply Forall_cons; [ lia | ]). apply Forall_nil. }
  assert (Hc : one_case (Py.lit "a12uel5l")) by (left; reflexivity).
  split; [ exact Hr | ]. split; [ exact Hc | ].
  exact (proj1 (proj2 (proj1 separator_is_last_one (Py.lit "a12uel5l") Hr Hc))).
Defined.

(** C6, as stated for every input, fails: on ["Bc"] the lowercase form
    has no ['1'], so the position is [-1], and [bech32_decode] raises
    ['mixed case'], not ['invalid separator position']. *)
Lemma separator_error_needs_case_check :
  ~ (forall s,
       let bech := Py.lower s in
       let pos := Py.rfind 49 bech in
       bech32_decode s = Raise InvalidSeparatorPosition <->
       pos < 1 \/ Py.len bech - (pos + 1) < 6) /\
  Py.rfind 49 (Py.lower (Py.lit "Bc")) = -1 /\
  bech32_decode (Py.lit "Bc") = Raise MixedCase.
Proof.
  split; [ | split; reflexivity ].
  intros H. specialize (H (Py.lit "Bc")). cbv zeta in H.
  destruct H as [_ H].
  assert (E : bech32_decode (Py.lit "Bc") = Raise InvalidSeparatorPosition).
  { apply H. left. vm_compute. reflexivity. }
  vm_compute in E. discriminate.
Qed.

(** ** What is returned as data *)

(** C5, as the program has it: on every input it accepts,
    [bech32_decode] returns as [data] the values of all the characters
    after the separator, in order; there are at least 6 of them, and the
    last 6, the checksum, are part of what is returned. *)
Theorem decode_returns_all_data (s : Py.str) (r : decoded) :
  bech32_decode s = Ok r ->
  exists part,
    Py.lower s = d_hrp r ++ 49 :: part /\ ~ In 49 part /\
    reads part (d_data r) /\
    List.length (d_data r) = List.length part /\
    (6 <= List.length (d_data r))%nat /\
    List.length (skipn (List.length (d_data r) - 6) (d_data r)) = 6%nat.
Proof.
  intros D. apply decode_Ok_inv in D.
  destruct D as (_ & _ & t & E & Hn & _ & _ & H6 & R & _).
  exists t. pose proof (reads_length _ _ R) as L.
  unfold Py.len in H6. rewrite length_skipn.
  repeat split; try assumption; lia.
Qed.

Lemma decode_returns_all_data_witness :
  exists part,
    Py.lower (Py.lit "a12uel5l") = Py.lit "a" ++ 49 :: part /\
    reads part [10; 28; 25; 31; 20; 31].
Proof.
  destruct (decode_returns_all_data (Py.lit "a12uel5l")
              (Decoded (Py.lit "a") [10; 28; 25; 31; 20; 31] 1 true))
    as (part & E & _ & R & _).
  - vm_compute. reflexivity.
  - exists part. split; [ exact E | exact R ].
Defined.

(** C5, as stated, fails: the sequence returned is not the data values
    with the last 6 removed.  For ["a12uel5l"] the data values are the
    6 checksum values and all 6 are returned. *)
Lemma decode_keeps_checksum :
  ~ (forall s r part values,
       bech32_decode s = Ok r ->
       Py.lower s = d_hrp r ++ 49 :: part -> reads part values ->
       d_data r = firstn (List.length values - 6) values).
Proof.
  intros H.
  specialize (H (Py.lit "a12uel5l")
                (Decoded (Py.lit "a") [10; 28; 25; 31; 20; 31] 1 true)
                (Py.lit "2uel5l") [10; 28; 25; 31; 20; 31]).
  simpl d_data in H. simpl firstn in H.
  assert (E : [10; 28; 25; 31; 20; 31] = @nil Z); [ | discriminate E ].
  apply H.
  - vm_compute. reflexivity.
  - reflexivity.
  - repeat constructor.
Qed.

(** ** Lowercase and uppercase forms of one string *)

Lemma existsb_map {A B} (f : A -> B) (p : B -> bool) (l : list A) :
  existsb p (map f l) = existsb (fun x => p (f x)) l.
Proof. induction l; simpl; congruence. Qed.

Lemma existsb_ext' {A} (p q : A -> bool) (l : list A) :
  (forall x, p x = q x) -> existsb p l = existsb q l.
Proof. intros E. induction l; simpl; congruence. Qed.

(** C8, on ASCII: for every string [s] of code points below 128,
    [bech32_decode] has the same outcome on [s.lower()] and on
    [s.upper()]: the same exception, or the same prefix, data, raw
    checksum value and validity. *)
Theorem decode_case_insensitive (s : Py.str) :
  Forall (fun c => 0 <= c < 128) s ->
  bech32_decode (Py.lower s) = bech32_decode (Py.upper s).
Proof.
  intros Ha. change (Forall ascii s) in Ha.
  rewrite (lower_ascii s Ha), (upper_ascii s Ha).
  assert (HL : Forall ascii (map lower_char s))
    by (apply Forall_map_ascii; [ apply lower_char_ascii | assumption ]).
  assert (HU : Forall ascii (map upper_char s))
    by (apply Forall_map_ascii; [ apply upper_char_ascii | assumption ]).
  unfold bech32_decode.
  rewrite !existsb_map.
  rewrite (existsb_ext' _ out_of_range s lower_char_out).
  rewrite (existsb_ext' _ out_of_range s upper_char_out).
  destruct (existsb out_of_range s); [ reflexivity | ].
  assert (LL : Py.lower (map lower_char s) = map lower_char s).
  { rewrite lower_ascii, map_map by assumption.
    apply map_ext, lower_char_idem. }
  assert (UU : Py.upper (map upper_char s) = map upper_char s).
  { rewrite upper_ascii, map_map by assumption.
    apply map_ext, upper_char_idem. }
  assert (LU : Py.lower (map upper_char s) = map lower_char s).
  { rewrite lower_ascii, map_map by assumption.
    apply map_ext, lower_upper_char. }
  rewrite (proj2 (mixed_case_false _) (or_introl LL)).
  rewrite (proj2 (mixed_case_false _) (or_intror UU)).
  cbv zeta. now rewrite LL, LU.
Qed.

Lemma decode_case_insensitive_witness :
  bech32_decode (Py.lower (Py.lit "Bc1Qw508"))
  = bech32_decode (Py.upper (Py.lit "Bc1Qw508")).
Proof.
  apply decode_case_insensitive.
  repeat constructor; vm_compute; discriminate.
Defined.

(** C8, as stated for every string, fails outside ASCII: KELVIN SIGN
    (U+212A) lowers to [k] and is its own uppercase form, so the
    lowercase form of the string below decodes and its uppercase form is
    refused for its character range. *)
Lemma decode_kelvin_sign :
  let s := 0x212A :: Py.lit "1qqqqqq" in
  bech32_decode (Py.lower s)
  = Ok (Decoded (Py.lit "k") [0; 0; 0; 0; 0; 0] 249447214 false) /\
  bech32_decode (Py.upper s) = Raise InvalidCharRange /\
  bech32_decode (Py.lower s) <> bech32_decode (Py.upper s).
Proof.
  cbv zeta. split; [ | split ].
  - vm_compute. reflexivity.
  - vm_compute. reflexivity.
  - vm_compute. discriminate.
Qed.

(** ** One substituted symbol is always detected *)

Section Substitution.

(** [s[:i] + c + s[i+1:]]: the string [s] with the character at index
    [i] replaced by [c]. *)
Definition replace_at {A} (s : list A) (i : nat) (c : A) : list A :=
  firstn i s ++ c :: skipn (S i) s.

(** The symbol of value [w], written in the case of the string [s]. *)
Definition in_case_of (s : Py.str) (w c : Z) : Prop :=
  (Py.lower s = s /\ c = charset_at w) \/
  (Py.upper s = s /\ c = upper_char (charset_at w)).

Lemma replace_at_mid {A} (l1 l2 : list A) (x c : A) :
  replace_at (l1 ++ x :: l2) (List.length l1) c = l1 ++ c :: l2.
Proof.
  unfold replace_at.
  rewrite firstn_app, firstn_all, Nat.sub_diag. simpl firstn.
  rewrite app_nil_r. f_equal. f_equal.
  replace (S (List.length l1)) with (List.length l1 + 1)%nat by lia.
  rewrite skipn_app, skipn_all2 by lia.
  replace (List.length l1 + 1 - List.length l1)%nat with 1%nat by lia.
  reflexivity.
Qed.

Lemma replace_at_tail {A} (h t : list A) (x c : A) (j : nat) :
  replace_at (h ++ x :: t) (List.length h + 1 + j) c = h ++ x :: replace_at t j c.
Proof.
  unfold replace_at.
  rewrite firstn_app.
  rewrite firstn_all2 by lia.
  replace (List.length h + 1 + j - List.length h)%nat with (S j) by lia.
  replace (S (List.length h + 1 + j)) with (List.length h + S (S j))%nat by lia.
  rewrite skipn_app, skipn_all2 by lia.
  replace (List.length h + S (S j) - List.length h)%nat with (S (S j)) by lia.
  simpl. now rewrite <- app_assoc.
Qed.

Lemma map_replace_at {A B} (f : A -> B) (s : list A) (i : nat) (c : A) :
  map f (replace_at s i c) = replace_at (map f s) i (f c).
Proof.
  unfold replace_at. now rewrite map_app, map_cons, firstn_map, skipn_map.
Qed.

Lemma replace_at_fixed {A} (f : A -> A) (s : list A) (i : nat) (c : A) :
  map f s = s -> f c = c -> map f (replace_at s i c) = replace_at s i c.
Proof. intros Es Ec. now rewrite map_replace_at, Es, Ec. Qed.

Lemma replace_at_Forall {A} (P : A -> Prop) (s : list A) (i : nat) (c : A) :
  Forall P s -> P c -> Forall P (replace_at s i c).
Proof.
  intros Hs Hc. unfold replace_at. apply Forall_app. split.
  - rewrite <- (firstn_skipn i s) in Hs. now apply Forall_app in Hs.
  - constructor; [ assumption | ].
    rewrite <- (firstn_skipn (S i) s) in Hs. now apply Forall_app in Hs.
Qed.

Lemma in_range_out (c : Z) : out_of_range c = false <-> in_range c.
Proof.
  unfold out_of_range, Py.ord, in_range.
  rewrite orb_false_iff, Z.gtb_ltb, !Z.ltb_ge. tauto.
Qed.

(** Two sequences of 5-bit values that differ at one place have
    different checksum registers. *)
Lemma polymod_detects (pre post : list Z) (v w : Z) :
  Forall value5 pre -> Forall value5 post -> value5 v -> value5 w ->
  v <> w -> polymod (pre ++ v :: post) <> polymod (pre ++ w :: post).
Proof.
  intros Hpre Hpost Hv Hw N E.
  rewrite !polymod_app in E. simpl fold_left in E.
  pose proof (polymod_30bit pre Hpre) as Hc.
  apply fold_step_inj in E; try assumption;
    try (apply polymod_step_30bit; assumption).
  rewrite !polymod_step_advance in E. apply N.
  apply (f_equal (Z.lxor (advance (polymod pre)))) in E.
  now rewrite <- !Z.lxor_assoc, Z.lxor_nilpotent, !Z.lxor_0_l in E.
Qed.

Lemma reads_split (part : Py.str) (data : list Z) (j : nat) :
  reads part data -> (j < List.length data)%nat ->
  exists p1 ch p2 d1 d2,
    part = p1 ++ ch :: p2 /\ data = d1 ++ nth j data 0 :: d2 /\
    List.length p1 = j /\ List.length d1 = j /\
    reads p1 d1 /\ reads p2 d2.
Proof.
  intros R Hj.
  destruct (nth_split data 0 Hj) as (d1 & d2 & E & L).
  rewrite E in R. apply Forall2_app_inv_r in R.
  destruct R as (p1 & p2' & R1 & R2 & ->).
  inversion R2 as [ | ch v p2 d2' Hch R2' ]; subst.
  exists p1, ch, p2, d1, d2. repeat split; try assumption.
  apply (Forall2_length R1).
Qed.

End Substitution.

(** C3, with the substituted symbol in the case of the string: let [s]
    decode with [valid = true], let [j] be an index in its data part and
    [w] a 5-bit value other than the one decoded there.  Replacing the
    character of [s] at that index by the symbol of [w], written in
    lowercase when [s] is lowercase and in uppercase when [s] is
    uppercase, gives a string that decodes without exception, to the same
    prefix and to the data with [w] at index [j], with [valid = false]. *)
Theorem single_substitution_detected
    (s : Py.str) (r : decoded) (j : nat) (w c : Z) :
  bech32_decode s = Ok r -> d_ok r = true ->
  (j < List.length (d_data r))%nat ->
  0 <= w < 32 -> nth j (d_data r) 0 <> w ->
  in_case_of s w c ->
  let s' := replace_at s (List.length (d_hrp r) + 1 + j) c in
  let r' := report (d_hrp r) (replace_at (d_data r) j w) in
  bech32_decode s' = Ok r' /\ d_ok r' = false.
Proof.
  intros D Hok Hj Hw Hne Hc. cbv zeta.
  apply decode_Ok_inv in D.
  destruct D as (Hr & Hm & part & El & Hn & _ & Hh & H6 & R & E).
  remember (d_hrp r) as hrp eqn:Qh. remember (d_data r) as data eqn:Qd.
  clear Qh Qd.
  assert (Ha : Forall ascii s).
  { eapply Forall_impl; [ | exact Hr ]. apply in_range_ascii. }
  rewrite (lower_ascii s Ha) in El.
  destruct (charset_at_shape w Hw) as (Wr & W49 & Wl).
  assert (Cl : lower_char c = charset_at w).
  { destruct Hc as [[_ ->] | [_ ->]]; [ assumption | ].
    now rewrite lower_upper_char. }
  assert (Cr : in_range c).
  { destruct Hc as [[_ ->] | [_ ->]]; [ assumption | ].
    apply in_range_out. rewrite upper_char_out. now apply in_range_out. }
  destruct (reads_split part data j R Hj)
    as (p1 & ch & p2 & d1 & d2 & Ep & Ed & L1 & L2 & R1 & R2).
  pose proof (reads_value5 _ _ R) as V.
  assert (Hv : value5 (nth j data 0)).
  { rewrite Forall_forall in V. apply V, nth_In. exact Hj. }
  remember (nth j data 0) as v eqn:Qv. clear Qv.
  remember (replace_at s (List.length hrp + 1 + j) c) as s' eqn:Qs.
  assert (Hr' : Forall in_range s') by (subst s'; now apply replace_at_Forall).
  assert (Ha' : Forall ascii s').
  { eapply Forall_impl; [ | exact Hr' ]. apply in_range_ascii. }
  assert (El' : Py.lower s' = hrp ++ 49 :: (p1 ++ charset_at w :: p2)).
  { rewrite (lower_ascii s' Ha'). subst s' part.
    rewrite map_replace_at, El, Cl, replace_at_tail. subst j.
    now rewrite replace_at_mid. }
  assert (Hm' : mixed_case s' = false).
  { apply mixed_case_false. destruct Hc as [[Es ->] | [Es ->]].
    - left. rewrite (lower_ascii s' Ha'). rewrite (lower_ascii s Ha) in Es.
      subst s'. now apply replace_at_fixed.
    - right. rewrite (upper_ascii s' Ha'). rewrite (upper_ascii s Ha) in Es.
      subst s'. apply replace_at_fixed; [ assumption | apply upper_char_idem ]. }
  assert (Ed' : replace_at data j w = d1 ++ w :: d2).
  { rewrite Ed, <- L2. apply replace_at_mid. }
  assert (R' : reads (p1 ++ charset_at w :: p2) (d1 ++ w :: d2)).
  { apply Forall2_app; [ assumption | ].
    constructor; [ now apply value_of_charset_at | assumption ]. }
  rewrite Ed'.
  split.
  { apply (decode_intro s' hrp (p1 ++ charset_at w :: p2)); try assumption.
    - rewrite Ep in Hn. rewrite in_app_iff in *. simpl in *.
      intros [I | [I | I]]; [ tauto | congruence | tauto ].
    - rewrite Ep in H6. unfold Py.len in *.
      rewrite length_app, length_cons in *. exact H6. }
  unfold report. cbv zeta. simpl d_ok. apply Z.eqb_neq.
  rewrite E in Hok. unfold report in Hok. cbv zeta in Hok. simpl d_ok in Hok.
  apply Z.eqb_eq in Hok. rewrite Ed in Hok.
  rewrite <- Hok, !app_assoc.
  assert (Hx : Forall value5 (hrp_expand hrp)).
  { apply hrp_expand_value5.
    assert (F : Forall ascii (map lower_char s))
      by (apply Forall_map_ascii; [ apply lower_char_ascii | assumption ]).
    rewrite El in F. now apply Forall_app in F. }
  pose proof (reads_value5 _ _ R1) as V1.
  pose proof (reads_value5 _ _ R2) as V2.
  intros Q. symmetry in Q. revert Q. apply polymod_detects; try assumption.
  apply Forall_app. now split.
Qed.

Lemma single_substitution_detected_witness :
  bech32_decode (replace_at (Py.lit "a12uel5l") 7 113)
  = Ok (report (Py.lit "a") [10; 28; 25; 31; 20; 0]) /\
  d_ok (report (Py.lit "a") [10; 28; 25; 31; 20; 0]) = false.
Proof.
  apply (single_substitution_detected
           (Py.lit "a12uel5l")
           (Decoded (Py.lit "a") [10; 28; 25; 31; 20; 31] 1 true) 5 0 113).
  - vm_compute. reflexivity.
  - reflexivity.
  - simpl. lia.
  - lia.
  - simpl. lia.
  - left. split; reflexivity.
Defined.

(** C3, as stated, fails on uppercase strings: ["A12UEL5L"] decodes with
    [valid = true]; replacing its last symbol by the symbol [q] of the
    alphabet, which is another character and stands for another value,
    gives a string of mixed case, and [bech32_decode] raises on it. *)
Lemma substitution_in_uppercase_raises :
  ~ (forall s r i c,
       bech32_decode s = Ok r -> d_ok r = true ->
       (List.length (d_hrp r) < i < List.length s)%nat ->
       In c CHARSET -> c <> nth i s 0 ->
       value_of c <> value_of (nth i (Py.lower s) 0) ->
       exists r', bech32_decode (replace_at s i c) = Ok r' /\ d_ok r' = false).
Proof.
  intros H.
  destruct (H (Py.lit "A12UEL5L")
              (Decoded (Py.lit "a") [10; 28; 25; 31; 20; 31] 1 true) 7%nat 113)
    as (r' & D & _).
  - vm_compute. reflexivity.
  - reflexivity.
  - simpl. lia.
  - vm_compute. tauto.
  - vm_compute. discriminate.
  - vm_compute. discriminate.
  - vm_compute in D. discriminate.
Qed.

(** * The encoder of the specification *)

Module Encoder.

(** Modelled from the spec: the target constant [M = 1] of
    ChecksumEngine; the probe compares with the literal [1]. *)
Definition M : Z := 1.

(** Modelled from the spec: [CharsetCodec.symbolOf], absent from the
    probe: a value in [[0, 31]] to its character of the alphabet. *)
Definition symbolOf (value : Z) : Z := charset_at value.

(** Modelled from the spec: [ChecksumEngine.computeChecksum], absent from
    the probe: [polymod(hrpExpand(hrp) ++ payloadValues ++ [0,0,0,0,0,0])
    XOR M], its low 30 bits split into six 5-bit groups, the most
    significant group first. *)
Definition computeChecksum (hrp : Py.str) (payloadValues : list Z) : list Z :=
  let pm := Z.lxor (polymod (hrp_expand hrp ++ payloadValues ++ [0; 0; 0; 0; 0; 0])) M in
  map (fun i => Z.land (Z.shiftr pm (5 * (5 - i))) 31) (Py.range 6).

Inductive EncodeError : Type :=
| InvalidPrefix
| InvalidValue.

(** Modelled from the spec: [AddressCodec.encode], absent from the
    probe.  It requires a non-empty [hrp] with every character in range
    and payload values in [[0, 31]], and renders
    [hrp + "1" + symbolOf(each of payloadValues ++ checksum)]. *)
Definition encode (hrp : Py.str) (payloadValues : list Z) : EncodeError + Py.str :=
  if (Py.len hrp =? 0) || existsb out_of_range hrp then inl InvalidPrefix
  else if existsb (fun v => (v <? 0) || (v >? 31)) payloadValues then inl InvalidValue
  else
    let checksum := computeChecksum hrp payloadValues in
    inr (hrp ++ [49] ++ map symbolOf (payloadValues ++ checksum)).

End Encoder.

(** ** Appending the checksum brings the register to 1 *)

Section Checksum.

(** The number whose base-32 digits, most significant first, are
    [values]. *)
Definition pack (values : list Z) : Z :=
  fold_left (fun acc v => acc * 32 + v) values 0.

Lemma pack_snoc (values : list Z) (v : Z) :
  pack (values ++ [v]) = pack values * 32 + v.
Proof. unfold pack. now rewrite fold_left_app. Qed.

Lemma pack_bound (values : list Z) :
  Forall value5 values -> 0 <= pack values < 32 ^ Py.len values.
Proof.
  induction values as [ | v values IH] using rev_ind; intros H.
  - unfold pack, Py.len. simpl. lia.
  - apply Forall_app in H. destruct H as [H Hv].
    inversion Hv as [ | ? ? Hv5 _]; subst. unfold value5 in Hv5.
    specialize (IH H). rewrite pack_snoc.
    unfold Py.len in *. rewrite length_app.
    rewrite Nat2Z.inj_add, Z.pow_add_r by lia.
    change (32 ^ Z.of_nat (List.length [v])) with 32. lia.
Qed.

(** Feeding at most six values after a register state changes the result
    of feeding as many zeros by the packed values. *)
Lemma fold_step_pack (values : list Z) (chk : Z) :
  Forall value5 values -> (List.length values <= 6)%nat ->
  fold_left polymod_step values chk =
  Z.lxor (fold_left polymod_step (repeat 0 (List.length values)) chk)
         (pack values).
Proof.
  induction values as [ | v values IH] using rev_ind; intros H L.
  - simpl. now rewrite Z.lxor_0_r.
  - apply Forall_app in H. destruct H as [H Hv].
    inversion Hv as [ | ? ? Hv5 _]; subst.
    rewrite length_app in *. cbn [List.length] in *.
    rewrite repeat_app, !fold_left_app. cbn [repeat fold_left].
    rewrite !polymod_step_advance, Z.lxor_0_r, IH, advance_lxor by (assumption || lia).
    pose proof (pack_bound values H) as B.
    assert (P : 32 ^ Py.len values <= 32 ^ 5).
    { apply Z.pow_le_mono_r; unfold Py.len; lia. }
    change (32 ^ 5) with (2 ^ 25) in P.
    rewrite (advance_small (pack values)) by lia.
    now rewrite pack_snoc, Z.lxor_assoc, lxor_low5.
Qed.

Lemma pack_groups (pm : Z) :
  0 <= pm < 2 ^ 30 ->
  pack (map (fun i => Z.land (Z.shiftr pm (5 * (5 - i))) 31) (Py.range 6)) = pm.
Proof.
  intros H. change (Py.range 6) with [0; 1; 2; 3; 4; 5].
  unfold pack. cbn [map fold_left].
  change 31 with (Z.ones 5). rewrite !Z.land_ones, !Z.shiftr_div_pow2 by lia.
  cbn [Z.sub Z.mul Z.add Z.opp Z.pos_sub Pos.mul Pos.add Pos.succ
       Z.succ_double Z.pred_double Z.double Pos.pred_double].
  change (2 ^ 25) with 33554432. change (2 ^ 20) with 1048576.
  change (2 ^ 15) with 32768. change (2 ^ 10) with 1024.
  change (2 ^ 5) with 32. change (2 ^ 0) with 1.
  change (2 ^ 30) with 1073741824 in H.
  Z.div_mod_to_equations. lia.
Qed.

Lemma groups_value5 (pm : Z) :
  Forall value5 (map (fun i => Z.land (Z.shiftr pm (5 * (5 - i))) 31) (Py.range 6)).
Proof.
  apply Forall_map, Forall_forall. intros i _. unfold value5.
  change 31 with (Z.ones 5). rewrite Z.land_ones by lia.
  apply Z.mod_pos_bound. lia.
Qed.

Lemma computeChecksum_value5 (hrp : Py.str) (payload : list Z) :
  Forall value5 (Encoder.computeChecksum hrp payload) /\
  List.length (Encoder.computeChecksum hrp payload) = 6%nat.
Proof.
  unfold Encoder.computeChecksum. cbv zeta. split.
  - apply groups_value5.
  - now rewrite length_map.
Qed.

Lemma computeChecksum_closes (hrp : Py.str) (payload : list Z) :
  Forall ascii hrp -> Forall value5 payload ->
  polymod (hrp_expand hrp ++ payload ++ Encoder.computeChecksum hrp payload) = 1.
Proof.
  intros Hh Hp.
  destruct (computeChecksum_value5 hrp payload) as [V L].
  assert (Hx : Forall value5 (hrp_expand hrp ++ payload)).
  { apply Forall_app. split; [ now apply hrp_expand_value5 | assumption ]. }
  pose proof (polymod_30bit _ Hx) as Hc.
  set (c := polymod (hrp_expand hrp ++ payload)) in *.
  set (pm0 := fold_left polymod_step [0; 0; 0; 0; 0; 0] c).
  assert (E0 : polymod (hrp_expand hrp ++ payload ++ [0; 0; 0; 0; 0; 0]) = pm0)
    by (rewrite app_assoc; apply polymod_app).
  assert (H0 : 0 <= pm0 < 2 ^ 30).
  { apply fold_step_30bit; [ | assumption ].
    repeat constructor; unfold value5; lia. }
  rewrite app_assoc, polymod_app. fold c.
  rewrite fold_step_pack, L by (assumption || lia).
  cbn [repeat]. fold pm0.
  unfold Encoder.computeChecksum. cbv zeta. rewrite E0, pack_groups.
  - now rewrite <- Z.lxor_assoc, Z.lxor_nilpotent, Z.lxor_0_l.
  - apply lxor_bound; [ lia | assumption | unfold Encoder.M; lia ].
Qed.

End Checksum.

(** ** Round trip through the encoder *)

(** C1, as the program has it: for every non-empty prefix [hrp] whose
    characters lie in [[33, 126]] and none of which is an uppercase
    letter, and every payload of integers in [[0, 31]], [encode]
    succeeds, and decoding its result returns [hrp], the payload followed
    by its 6 checksum values, the raw checksum value 1 and
    [valid = true]. *)
Theorem encode_decode_roundtrip (hrp : Py.str) (payload : list Z) :
  hrp <> [] ->
  Forall (fun c => 33 <= c <= 126) hrp ->
  Forall (fun c => ~ 65 <= c <= 90) hrp ->
  Forall (fun v => 0 <= v <= 31) payload ->
  exists text,
    Encoder.encode hrp payload = inr text /\
    bech32_decode text
    = Ok (Decoded hrp (payload ++ Encoder.computeChecksum hrp payload) 1 true) /\
    List.length (Encoder.computeChecksum hrp payload) = 6%nat.
Proof.
  intros Hne Hr Hlow Hp.
  set (cs := Encoder.computeChecksum hrp payload).
  set (data := payload ++ cs).
  exists (hrp ++ 49 :: map charset_at data).
  destruct (computeChecksum_value5 hrp payload) as [Vc Lc]. fold cs in Vc, Lc.
  assert (Vp : Forall value5 payload).
  { eapply Forall_impl; [ | exact Hp ]. unfold value5. intros; lia. }
  assert (Vd : Forall value5 data) by (apply Forall_app; now split).
  assert (Ha : Forall ascii hrp).
  { eapply Forall_impl; [ | exact Hr ]. apply in_range_ascii. }
  split; [ | split; [ | exact Lc ] ].
  - unfold Encoder.encode.
    assert (L0 : (Py.len hrp =? 0) = false).
    { apply Z.eqb_neq. destruct hrp; [ congruence | ].
      unfold Py.len. rewrite length_cons. lia. }
    rewrite L0, (proj2 (range_check hrp) Hr). cbn [orb].
    assert (E : existsb (fun v => (v <? 0) || (v >? 31)) payload = false).
    { clear - Hp. induction Hp as [ | v payload Hv _ IH]; [ reflexivity | ].
      simpl. rewrite IH, Z.gtb_ltb.
      destruct (Z.ltb_spec v 0), (Z.ltb_spec 31 v); simpl; lia. }
    rewrite E. reflexivity.
  - assert (Sr : Forall in_range (map charset_at data)).
    { apply Forall_map. eapply Forall_impl; [ | exact Vd ].
      intros v Hv. now apply charset_at_shape. }
    assert (Tr : Forall in_range (hrp ++ 49 :: map charset_at data)).
    { apply Forall_app. split; [ exact Hr | ].
      constructor; [ unfold in_range; lia | exact Sr ]. }
    assert (Tl : Py.lower (hrp ++ 49 :: map charset_at data)
                 = hrp ++ 49 :: map charset_at data).
    { rewrite lower_ascii.
      2:{ eapply Forall_impl; [ | exact Tr ]. apply in_range_ascii. }
      rewrite map_app, map_cons. f_equal; [ | f_equal ].
      - clear - Hlow. induction Hlow as [ | c hrp Hc _ IH]; [ reflexivity | ].
        simpl. rewrite IH. f_equal.
        destruct (lower_char_cases c); lia.
      - rewrite map_map. clear - Vd.
        induction Vd as [ | v data Hv _ IH]; [ reflexivity | ].
        simpl. rewrite IH. f_equal. now apply charset_at_shape. }
    rewrite (decode_intro _ hrp (map charset_at data) data); try assumption.
    + pose proof (computeChecksum_closes hrp payload Ha Vp) as C.
      fold cs in C. fold data in C.
      unfold report. cbv zeta. rewrite C. reflexivity.
    + apply mixed_case_false. now left.
    + rewrite in_map_iff. intros (v & E & I).
      rewrite Forall_forall in Vd. apply Vd in I.
      apply charset_at_shape in I. destruct I as (_ & N & _). exact (N E).
    + unfold Py.len, data. rewrite length_map, length_app, Lc. lia.
    + now apply reads_symbols.
Qed.

Lemma encode_decode_roundtrip_witness :
  exists text,
    Encoder.encode (Py.lit "bc") [0; 14; 20] = inr text /\
    bech32_decode text
    = Ok (Decoded (Py.lit "bc")
            ([0; 14; 20] ++ Encoder.computeChecksum (Py.lit "bc") [0; 14; 20])
            1 true).
Proof.
  destruct (encode_decode_roundtrip (Py.lit "bc") [0; 14; 20])
    as (text & E & D & _).
  - discriminate.
  - repeat constructor; vm_compute; discriminate.
  - repeat constructor; vm_compute; intros [_ H]; now apply H.
  - repeat constructor; vm_compute; discriminate.
  - exists text. split; [ exact E | exact D ].
Defined.

(** C1, as stated, fails.  For the prefix ["bc"] and the empty payload
    the decoder returns the 6 checksum values as data, not the empty
    payload; for the uppercase prefix ["BC"] the encoder's string has
    both cases and the decoder raises ['mixed case']. *)
Lemma roundtrip_returns_checksum :
  ~ (forall hrp payload,
       hrp <> [] ->
       Forall (fun c => 33 <= c <= 126) hrp ->
       (Py.lower hrp = hrp \/ Py.upper hrp = hrp) ->
       Forall (fun v => 0 <= v <= 31) payload ->
       exists text pm,
         Encoder.encode hrp payload = inr text /\
         bech32_decode text = Ok (Decoded hrp payload pm true)) /\
  (exists text,
     Encoder.encode (Py.lit "bc") [] = inr text /\
     bech32_decode text
     = Ok (Decoded (Py.lit "bc") [8; 27; 22; 5; 4; 28] 1 true)) /\
  (exists text,
     Encoder.encode (Py.lit "BC") [] = inr text /\
     bech32_decode text = Raise MixedCase).
Proof.
  split; [ | split ].
  - intros H.
    destruct (H (Py.lit "bc") []) as (text & pm & E & D).
    + discriminate.
    + repeat constructor; vm_compute; discriminate.
    + left. reflexivity.
    + constructor.
    + vm_compute in E. inversion E; subst. vm_compute in D. discriminate.
  - exists (Py.lit "bc1gmk9yu"). split; vm_compute; reflexivity.
  - exists (Py.lit "BC1akxe2s"). split; vm_compute; reflexivity.
Qed.

(** * Further properties of the probe *)

(** ** [hrp_expand] keeps the whole prefix *)

Section Expand.

Lemma split5 (x : Z) : x = Z.shiftr x 5 * 32 + Z.land x 31.
Proof.
  change 31 with (Z.ones 5). rewrite Z.land_ones, Z.shiftr_div_pow2 by lia.
  change (2 ^ 5) with 32. pose proof (Z.div_mod x 32). lia.
Qed.

Lemma app_inj_length {A} (a b c d : list A) :
  List.length a = List.length c -> a ++ b = c ++ d -> a = c /\ b = d.
Proof.
  revert c. induction a as [ | x a IH]; intros [ | y c] L E; simpl in *;
    try discriminate.
  - now split.
  - injection E as -> E. injection L as L.
    destruct (IH c L E) as [-> ->]. now split.
Qed.

Lemma hrp_expand_length (hrp : Py.str) :
  Py.len (hrp_expand hrp) = 2 * Py.len hrp + 1.
Proof.
  unfold hrp_expand, Py.len.
  rewrite length_app, length_map. cbn [app List.length].
  rewrite length_map. lia.
Qed.

End Expand.

(** X1: [hrp_expand] loses nothing of the prefix: two prefixes with the
    same expansion are the same string. *)
Theorem hrp_expand_injective (a b : Py.str) :
  hrp_expand a = hrp_expand b -> a = b.
Proof.
  intros E.
  assert (L : List.length a = List.length b).
  { pose proof (hrp_expand_length a) as La.
    pose proof (hrp_expand_length b) as Lb.
    rewrite E in La. unfold Py.len in *. lia. }
  unfold hrp_expand in E.
  apply app_inj_length in E; [ | now rewrite !length_map ].
  destruct E as [Eh El]. injection El as El. clear L.
  revert b Eh El. induction a as [ | x a IH]; intros [ | y b] Eh El;
    simpl in *; try discriminate; [ reflexivity | ].
  injection Eh as Hx Eh. injection El as Lx El. unfold Py.ord in *.
  f_equal; [ | now apply IH ].
  rewrite (split5 x), (split5 y). congruence.
Qed.

Lemma hrp_expand_injective_witness :
  hrp_expand (Py.lit "bc") = hrp_expand [98; 99] /\ Py.lit "bc" = [98; 99].
Proof.
  split; [ reflexivity | ].
  apply (hrp_expand_injective (Py.lit "bc") [98; 99]). reflexivity.
Defined.

(** ** [polymod] tells apart what differs within six values *)

Section Burst.

Lemma pack_inj (t1 t2 : list Z) :
  Forall value5 t1 -> Forall value5 t2 ->
  List.length t1 = List.length t2 -> pack t1 = pack t2 -> t1 = t2.
Proof.
  revert t2. induction t1 as [ | v t1 IH] using rev_ind; intros t2 H1 H2 L E.
  - destruct t2; [ reflexivity | discriminate ].
  - destruct (exists_last (l := t2)) as (t2' & w & ->).
    { intros ->. rewrite length_app in L. simpl in L. lia. }
    apply Forall_app in H1, H2. destruct H1 as [H1 Hv], H2 as [H2 Hw].
    inversion Hv as [ | ? ? Hv5 _]; inversion Hw as [ | ? ? Hw5 _]; subst.
    unfold value5 in Hv5, Hw5.
    rewrite !length_app in L. simpl in L. rewrite !pack_snoc in E.
    assert (pack t1 = pack t2' /\ v = w) as [Ep ->] by lia.
    f_equal. apply IH; try assumption. lia.
Qed.

End Burst.

Lemma polymod_burst_differs (pre t1 t2 post : list Z) :
  Forall value5 (pre ++ t1 ++ post) -> Forall value5 t2 ->
  List.length t1 = List.length t2 -> (List.length t1 <= 6)%nat ->
  t1 <> t2 ->
  polymod (pre ++ t1 ++ post) <> polymod (pre ++ t2 ++ post).
Proof.
  intros H H2 L L6 N E.
  apply Forall_app in H. destruct H as [Hpre H].
  apply Forall_app in H. destruct H as [H1 Hpost].
  pose proof (polymod_30bit pre Hpre) as Hc.
  rewrite !polymod_app, !fold_left_app in E.
  apply fold_step_inj in E; try assumption;
    try (apply fold_step_30bit; assumption).
  rewrite (fold_step_pack t1), (fold_step_pack t2), L in E
    by (assumption || lia).
  apply N, pack_inj; try assumption.
  apply (f_equal (Z.lxor (fold_left polymod_step (repeat 0 (List.length t2))
                                    (polymod pre)))) in E.
  now rewrite <- !Z.lxor_assoc, Z.lxor_nilpotent, !Z.lxor_0_l in E.
Qed.

(** X2: [polymod] detects every change confined to at most six
    consecutive values: two sequences of 5-bit values that agree outside
    a window of at most six places and differ inside it have different
    checksum registers. *)
Theorem polymod_detects_burst (pre t1 t2 post : list Z) :
  Forall (fun v => 0 <= v < 32) (pre ++ t1 ++ post) ->
  Forall (fun v => 0 <= v < 32) t2 ->
  List.length t1 = List.length t2 -> (List.length t1 <= 6)%nat ->
  t1 <> t2 ->
  polymod (pre ++ t1 ++ post) <> polymod (pre ++ t2 ++ post).
Proof. exact (polymod_burst_differs pre t1 t2 post). Qed.

Lemma polymod_detects_burst_witness :
  polymod ([3; 3; 0; 2; 3] ++ [1; 2; 3] ++ [0; 0; 0])
  <> polymod ([3; 3; 0; 2; 3] ++ [1; 7; 4] ++ [0; 0; 0]).
Proof.
  apply polymod_detects_burst.
  - repeat constructor; lia.
  - repeat constructor; lia.
  - reflexivity.
  - simpl. lia.
  - discriminate.
Defined.

(** ** What a successful decoding guarantees *)

Section Accepted.

Lemma lower_char_shape (x : Z) :
  in_range x -> in_range (lower_char x) /\ ~ 65 <= lower_char x <= 90.
Proof.
  unfold in_range. intros H. destruct (lower_char_cases x) as [[? ->] | [? ->]]; lia.
Qed.

Lemma reads_render (part : Py.str) (data : list Z) :
  reads part data -> part = map charset_at data.
Proof.
  induction 1 as [ | ch v part data H _ IH]; [ reflexivity | ].
  simpl. apply value_of_inv in H. destruct H as [_ ->]. now rewrite IH.
Qed.

Lemma report_ok (hrp : Py.str) (data : list Z) :
  d_ok (report hrp data) = true <-> polymod (hrp_expand hrp ++ data) = 1.
Proof. unfold report. cbv zeta. simpl d_ok. apply Z.eqb_eq. Qed.

(** The facts read off an accepted input, gathered. *)
Lemma accepted_shape (s : Py.str) (r : decoded) :
  bech32_decode s = Ok r ->
  Forall ascii s /\
  Py.lower s = d_hrp r ++ 49 :: map charset_at (d_data r) /\
  d_hrp r <> [] /\
  Forall (fun c => in_range c /\ ~ 65 <= c <= 90) (d_hrp r) /\
  Forall value5 (d_data r) /\
  (6 <= List.length (d_data r))%nat /\
  r = report (d_hrp r) (d_data r).
Proof.
  intros D. apply decode_Ok_inv in D.
  destruct D as (Hr & Hm & part & El & Hn & _ & Hh & H6 & R & E).
  assert (Ha : Forall ascii s).
  { eapply Forall_impl; [ | exact Hr ]. apply in_range_ascii. }
  pose proof (reads_render _ _ R) as Ep.
  pose proof (reads_length _ _ R) as Lp.
  split; [ exact Ha | ]. split; [ now rewrite El, Ep | ].
  split; [ exact Hh | ]. split; [ | split; [ | split ] ].
  - assert (F : Forall (fun c => in_range c /\ ~ 65 <= c <= 90) (Py.lower s)).
    { rewrite (lower_ascii s Ha). apply Forall_map.
      eapply Forall_impl; [ | exact Hr ]. apply lower_char_shape. }
    rewrite El in F. now apply Forall_app in F.
  - now apply reads_value5 in R.
  - unfold Py.len in H6. lia.
  - exact E.
Qed.

Lemma rendered_decodes (hrp : Py.str) (data : list Z) :
  hrp <> [] -> Forall (fun c => in_range c /\ ~ 65 <= c <= 90) hrp ->
  Forall value5 data -> (6 <= List.length data)%nat ->
  bech32_decode (hrp ++ 49 :: map charset_at data) = Ok (report hrp data).
Proof.
  intros Hh Hc Hd H6.
  assert (Hr : Forall in_range (hrp ++ 49 :: map charset_at data)).
  { apply Forall_app. split.
    - eapply Forall_impl; [ | exact Hc ]. now intros c [H _].
    - constructor; [ unfold in_range; lia | ].
      apply Forall_map. eapply Forall_impl; [ | exact Hd ].
      intros v Hv. now apply charset_at_shape. }
  assert (El : Py.lower (hrp ++ 49 :: map charset_at data)
               = hrp ++ 49 :: map charset_at data).
  { rewrite lower_ascii.
    2:{ eapply Forall_impl; [ | exact Hr ]. apply in_range_ascii. }
    rewrite map_app, map_cons. f_equal; [ | f_equal ].
    - clear - Hc. induction Hc as [ | c hrp [_ Hc] _ IH]; [ reflexivity | ].
      cbn [map]. rewrite IH. f_equal.
      destruct (lower_char_cases c) as [[? E] | [? E]]; [ lia | exact E ].
    - rewrite map_map. clear - Hd.
      induction Hd as [ | v data Hv _ IH]; [ reflexivity | ].
      cbn [map]. rewrite IH. f_equal. now apply charset_at_shape. }
  apply (decode_intro _ hrp (map charset_at data) data); try assumption.
  - apply mixed_case_false. now left.
  - rewrite in_map_iff. intros (v & E & I).
    rewrite Forall_forall in Hd. apply Hd in I.
    apply charset_at_shape in I. destruct I as (_ & N & _). exact (N E).
  - unfold Py.len. rewrite length_map. lia.
  - now apply reads_symbols.
Qed.

End Accepted.

(** X3: among the inputs decoded with [valid = true], the prefix and the
    payload (the data without its last six values) determine the six
    checksum values: two such inputs with the same prefix and payload
    have the same data, and the same lowercase form. *)
Theorem valid_checksum_unique (s1 s2 : Py.str) (r1 r2 : decoded) :
  bech32_decode s1 = Ok r1 -> bech32_decode s2 = Ok r2 ->
  d_ok r1 = true -> d_ok r2 = true ->
  d_hrp r1 = d_hrp r2 ->
  firstn (List.length (d_data r1) - 6) (d_data r1)
  = firstn (List.length (d_data r2) - 6) (d_data r2) ->
  d_data r1 = d_data r2 /\ Py.lower s1 = Py.lower s2.
Proof.
  intros D1 D2 O1 O2 Eh Ep.
  apply accepted_shape in D1, D2.
  destruct D1 as (A1 & L1 & _ & C1 & V1 & N1 & E1).
  destruct D2 as (_ & L2 & _ & _ & V2 & N2 & E2).
  rewrite E1 in O1. rewrite E2 in O2. apply report_ok in O1, O2.
  rewrite <- Eh in *.
  remember (d_hrp r1) as hrp eqn:Qh. clear Qh.
  remember (d_data r1) as d1 eqn:Q1. remember (d_data r2) as d2 eqn:Q2.
  clear Q1 Q2 E1 E2.
  assert (Ed : d1 = d2); [ | subst d2; split; [ reflexivity | congruence ] ].
  assert (Ln : List.length d1 = List.length d2).
  { apply (f_equal (@List.length Z)) in Ep. rewrite !length_firstn in Ep. lia. }
  rewrite <- (firstn_skipn (List.length d1 - 6) d1) in O1 |- *.
  rewrite <- (firstn_skipn (List.length d2 - 6) d2) in O2 |- *.
  rewrite <- Ep in *. f_equal.
  destruct (list_eq_dec Z.eq_dec (skipn (List.length d1 - 6) d1)
              (skipn (List.length d2 - 6) d2)) as [E | N]; [ exact E | exfalso ].
  assert (Hx : Forall value5 (hrp_expand hrp)).
  { apply hrp_expand_value5. eapply Forall_impl; [ | exact C1 ].
    intros c [H _]. now apply in_range_ascii. }
  rewrite <- (firstn_skipn (List.length d1 - 6) d1) in V1.
  rewrite <- (firstn_skipn (List.length d2 - 6) d2) in V2.
  apply Forall_app in V1, V2. destruct V1 as [Vp V1], V2 as [_ V2].
  rewrite !app_assoc in O1, O2.
  revert O1. rewrite <- O2.
  rewrite <- (app_nil_r (skipn (List.length d1 - 6) d1)).
  rewrite <- (app_nil_r (skipn (List.length d2 - 6) d2)).
  apply polymod_burst_differs.
  - rewrite app_nil_r. apply Forall_app. split; [ | exact V1 ].
    apply Forall_app. now split.
  - exact V2.
  - rewrite !length_skipn. lia.
  - rewrite length_skipn. lia.
  - exact N.
Qed.

Lemma valid_checksum_unique_witness :
  d_data (Decoded (Py.lit "a") [10; 28; 25; 31; 20; 31] 1 true)
  = [10; 28; 25; 31; 20; 31] /\
  Py.lower (Py.lit "A12UEL5L") = Py.lower (Py.lit "a12uel5l").
Proof.
  apply (valid_checksum_unique (Py.lit "A12UEL5L") (Py.lit "a12uel5l")
           (Decoded (Py.lit "a") [10; 28; 25; 31; 20; 31] 1 true)
           (Decoded (Py.lit "a") [10; 28; 25; 31; 20; 31] 1 true)).
  - vm_compute. reflexivity.
  - vm_compute. reflexivity.
  - reflexivity.
  - reflexivity.
  - reflexivity.
  - reflexivity.
Defined.

(** X4: whenever [bech32_decode] returns, the prefix is not empty and
    consists of characters of [[33, 126]] none of which is an uppercase
    letter, every data value lies in [[0, 31]] and there are at least
    six, the input has as many characters as the prefix, the separator
    and the data together, the raw checksum value lies in [[0, 2^30)],
    and [valid] holds exactly when that value is 1. *)
Theorem decode_result_invariants (s : Py.str) (r : decoded) :
  bech32_decode s = Ok r ->
  d_hrp r <> [] /\
  Forall (fun c => 33 <= c <= 126 /\ ~ 65 <= c <= 90) (d_hrp r) /\
  Forall (fun v => 0 <= v < 32) (d_data r) /\
  6 <= Py.len (d_data r) /\
  Py.len s = Py.len (d_hrp r) + 1 + Py.len (d_data r) /\
  0 <= d_pm r < 2 ^ 30 /\
  d_pm r = polymod (hrp_expand (d_hrp r) ++ d_data r) /\
  (d_ok r = true <-> d_pm r = 1).
Proof.
  intros D. apply accepted_shape in D.
  destruct D as (Ha & El & Hh & Hc & Hd & H6 & E).
  repeat split; try assumption.
  - unfold Py.len. lia.
  - apply (f_equal Py.len) in El. rewrite (lower_ascii s Ha) in El.
    unfold Py.len in *. rewrite length_map, length_app, length_cons, length_map in El.
    lia.
  - rewrite E. unfold report. cbv zeta. simpl d_pm.
    apply polymod_30bit, Forall_app. split; [ | exact Hd ].
    apply hrp_expand_value5. eapply Forall_impl; [ | exact Hc ].
    intros c [H _]. now apply in_range_ascii.
  - rewrite E. unfold report. cbv zeta. simpl d_pm.
    apply polymod_30bit, Forall_app. split; [ | exact Hd ].
    apply hrp_expand_value5. eapply Forall_impl; [ | exact Hc ].
    intros c [H _]. now apply in_range_ascii.
  - rewrite E at 1. reflexivity.
  - rewrite E. unfold report. cbv zeta. simpl. apply Z.eqb_eq.
  - rewrite E. unfold report. cbv zeta. simpl. apply Z.eqb_eq.
Qed.

Lemma decode_result_invariants_witness :
  0 <= d_pm (Decoded (Py.lit "bc") [8; 27; 22; 5; 4; 28] 1 true) < 2 ^ 30.
Proof.
  apply (decode_result_invariants (Py.lit "BC1GMK9YU")).
  vm_compute. reflexivity.
Defined.

(** ** Decoding and writing back *)

(** X5: what [bech32_decode] returns determines the lowercase form of
    its input: that form is the prefix, the separator ['1'] and the
    character [CHARSET[v]] of every data value [v], and decoding it
    returns the same result as decoding the input. *)
Theorem decode_then_render (s : Py.str) (r : decoded) :
  bech32_decode s = Ok r ->
  Py.lower s = d_hrp r ++ [49] ++ map charset_at (d_data r) /\
  bech32_decode (Py.lower s) = Ok r.
Proof.
  intros D. apply accepted_shape in D.
  destruct D as (_ & El & Hh & Hc & Hd & H6 & E).
  split; [ exact El | ].
  rewrite El, E. now apply rendered_decodes.
Qed.

Lemma decode_then_render_witness :
  bech32_decode (Py.lower (Py.lit "A12UEL5L"))
  = Ok (Decoded (Py.lit "a") [10; 28; 25; 31; 20; 31] 1 true).
Proof.
  apply (decode_then_render (Py.lit "A12UEL5L")).
  vm_compute. reflexivity.
Defined.

(** X6: writing a prefix and data values down and decoding the string
    returns them: for a non-empty prefix of characters of [[33, 126]]
    with no uppercase letter (it may hold ['1']) and at least six values
    of [[0, 31]], the string of the prefix, ['1'] and the characters
    [CHARSET[v]] decodes to that prefix and those values, with the raw
    checksum value of [polymod] and [valid] telling whether it is 1. *)
Theorem render_then_decode (hrp : Py.str) (data : list Z) :
  hrp <> [] ->
  Forall (fun c => 33 <= c <= 126 /\ ~ 65 <= c <= 90) hrp ->
  Forall (fun v => 0 <= v < 32) data ->
  (6 <= List.length data)%nat ->
  let pm := polymod (hrp_expand hrp ++ data) in
  bech32_decode (hrp ++ [49] ++ map charset_at data)
  = Ok (Decoded hrp data pm (pm =? 1)).
Proof. intros Hh Hc Hd H6. now apply rendered_decodes. Qed.

Lemma render_then_decode_witness :
  bech32_decode (Py.lit "a1b" ++ [49] ++ map charset_at [0; 1; 2; 3; 4; 5])
  = Ok (Decoded (Py.lit "a1b") [0; 1; 2; 3; 4; 5]
          (polymod (hrp_expand (Py.lit "a1b") ++ [0; 1; 2; 3; 4; 5]))
          (polymod (hrp_expand (Py.lit "a1b") ++ [0; 1; 2; 3; 4; 5]) =? 1)).
Proof.
  apply (render_then_decode (Py.lit "a1b") [0; 1; 2; 3; 4; 5]).
  - discriminate.
  - change (Py.lit "a1b") with [97; 49; 98].
    repeat (apply Forall_cons; [ lia | ]). apply Forall_nil.
  - repeat (apply Forall_cons; [ lia | ]). apply Forall_nil.
  - simpl. lia.
Defined.

(** ** Which exception, and when *)

Section Errors.

Lemma map_moved (f : Z -> Z) (s : Py.str) :
  map f s <> s -> exists c, In c s /\ f c <> c.
Proof.
  induction s as [ | x s IH]; simpl; [ congruence | ].
  intros N. destruct (Z.eq_dec (f x) x) as [E | E].
  - destruct IH as (c & I & Hc); [ congruence | ]. exists c. auto.
  - exists x. auto.
Qed.

(** The loop over [data_part] stops at the first character that is not
    in [CHARSET_MAP]. *)
Lemma data_loop_first (part : Py.str) (acc : list Z) (ch : Z) :
  data_loop part acc = Raise (InvalidCharacter ch) <->
  exists good rest,
    part = good ++ ch :: rest /\
    Forall (fun c => value_of c <> None) good /\ value_of ch = None.
Proof.
  revert acc. induction part as [ | c part IH]; intros acc; cbn [data_loop].
  - split; [ discriminate | ]. intros (good & rest & E & _).
    destruct good; discriminate.
  - change (Py.dict_get CHARSET_MAP c) with (value_of c).
    destruct (value_of c) as [v | ] eqn:V.
    + rewrite IH. split.
      * intros (good & rest & -> & F & N). exists (c :: good), rest.
        repeat split; try assumption. constructor; [ congruence | assumption ].
      * intros (good & rest & E & F & N). destruct good as [ | g good].
        -- injection E as -> _. congruence.
        -- injection E as -> E. inversion F; subst. exists good, rest. auto.
    + split.
      * intros [= <-]. exists [], part. repeat split; [ constructor | assumption ].
      * intros (good & rest & E & F & N). destruct good as [ | g good].
        -- injection E as -> _. reflexivity.
        -- injection E as -> _. inversion F; subst. congruence.
Qed.

Lemma not_In_CHARSET (ch : Z) : ~ In ch CHARSET <-> value_of ch = None.
Proof.
  rewrite In_CHARSET. destruct (value_of ch) as [v | ].
  - split; [ | discriminate ]. intros N. exfalso. apply N. now exists v.
  - split; [ reflexivity | ]. intros _ (v & E). discriminate.
Qed.

End Errors.

(** X7: [bech32_decode] raises ['invalid char range'] exactly on the
    strings that hold a character below 33 or above 126, whatever else
    they hold. *)
Theorem invalid_char_range_iff (s : Py.str) :
  bech32_decode s = Raise InvalidCharRange <->
  exists c, In c s /\ (c < 33 \/ 126 < c).
Proof.
  unfold bech32_decode.
  destruct (existsb out_of_range s) eqn:X.
  - split; [ intros _ | reflexivity ].
    apply existsb_exists in X. destruct X as (c & I & O).
    exists c. split; [ exact I | ].
    unfold out_of_range, Py.ord in O.
    rewrite orb_true_iff, Z.gtb_ltb, !Z.ltb_lt in O. exact O.
  - split.
    + destruct (mixed_case s); [ discriminate | ]. cbv zeta.
      destruct (bad_separator _ _); [ discriminate | ].
      destruct (data_loop _ _) as [d | e] eqn:L; simpl; [ discriminate | ].
      apply data_loop_Raise in L. destruct L as (ch & -> & _). discriminate.
    + intros (c & I & O). exfalso.
      apply range_check in X. rewrite Forall_forall in X.
      apply X in I. unfold in_range in I. lia.
Qed.

(** X8: [bech32_decode] raises ['mixed case'] exactly on the strings
    whose characters all lie in [[33, 126]] and which hold both an
    uppercase and a lowercase letter. *)
Theorem mixed_case_iff (s : Py.str) :
  bech32_decode s = Raise MixedCase <->
  Forall (fun c => 33 <= c <= 126) s /\
  (exists c, In c s /\ 65 <= c <= 90) /\
  (exists c, In c s /\ 97 <= c <= 122).
Proof.
  split.
  - intros D. apply decode_Raise_inv in D.
    destruct D as [[D _] | [(_ & Hr & M) | [[D _] | (ch & D & _)]]];
      try discriminate.
    assert (Ha : Forall ascii s).
    { eapply Forall_impl; [ | exact Hr ]. apply in_range_ascii. }
    apply mixed_case_true in M. destruct M as [NL NU].
    rewrite (lower_ascii s Ha) in NL. rewrite (upper_ascii s Ha) in NU.
    apply map_moved in NL, NU.
    destruct NL as (u & Iu & Hu), NU as (l & Il & Hl).
    split; [ exact Hr | ]. split.
    + exists u. split; [ exact Iu | ].
      destruct (lower_char_cases u) as [[? ?] | [? ?]]; [ assumption | congruence ].
    + exists l. split; [ exact Il | ].
      destruct (upper_char_cases l) as [[? ?] | [? ?]]; [ assumption | congruence ].
  - intros (Hr & (u & Iu & Hu) & (l & Il & Hl)).
    assert (Ha : Forall ascii s).
    { eapply Forall_impl; [ | exact Hr ]. apply in_range_ascii. }
    assert (M : mixed_case s = true).
    { apply mixed_case_true. split.
      - rewrite lower_ascii by assumption. intros E.
        pose proof (map_fixed _ _ E u Iu) as F.
        destruct (lower_char_cases u); lia.
      - rewrite upper_ascii by assumption. intros E.
        pose proof (map_fixed _ _ E l Il) as F.
        destruct (upper_char_cases l); lia. }
    unfold bech32_decode. apply range_check in Hr. now rewrite Hr, M.
Qed.

(** X9: [bech32_decode] raises ['invalid char ch'] exactly when the
    range, case and separator checks have passed and [ch] is the first
    character after the separator that is not in the alphabet. *)
Theorem invalid_character_iff (s : Py.str) (ch : Z) :
  bech32_decode s = Raise (InvalidCharacter ch) <->
  range_ok s /\ one_case s /\ separator_ok s /\
  exists good rest,
    Py.slice_from (Py.lower s) (Py.rfind 49 (Py.lower s) + 1)
    = good ++ ch :: rest /\
    Forall (fun c => In c CHARSET) good /\ ~ In ch CHARSET.
Proof.
  assert (G : forall good, Forall (fun c => value_of c <> None) good <->
                           Forall (fun c => In c CHARSET) good).
  { intros good. split; intros F; eapply Forall_impl; try exact F;
      intros c; rewrite In_CHARSET.
    - destruct (value_of c) as [v | ]; [ now exists v | congruence ].
    - intros (v & ->). discriminate. }
  unfold bech32_decode, range_ok, one_case, separator_ok. cbv zeta.
  destruct (existsb out_of_range s) eqn:X.
  { split; [ discriminate | ]. intros (Hr & _).
    apply range_check in Hr. congruence. }
  apply range_check in X.
  destruct (mixed_case s) eqn:M.
  { split; [ discriminate | ]. intros (_ & C & _).
    apply mixed_case_false in C. congruence. }
  apply mixed_case_false in M.
  destruct (bad_separator _ _) eqn:B.
  { split; [ discriminate | ]. intros (_ & _ & P & _).
    apply bad_separator_true in B. lia. }
  apply bad_separator_false in B.
  destruct (data_loop _ []) as [d | e] eqn:L; simpl bind.
  - split; [ discriminate | ]. intros (_ & _ & _ & good & rest & E & F & N).
    assert (R : data_loop
                  (Py.slice_from (Py.lower s) (Py.rfind 49 (Py.lower s) + 1)) []
                = Raise (InvalidCharacter ch)).
    { apply data_loop_first. exists good, rest.
      repeat split; [ exact E | now apply G | now apply not_In_CHARSET ]. }
    congruence.
  - split.
    + intros [= ->]. apply data_loop_first in L.
      destruct L as (good & rest & E & F & N).
      repeat split; try assumption; try lia.
      exists good, rest.
      repeat split; [ exact E | now apply G | now apply not_In_CHARSET ].
    + intros (_ & _ & _ & good & rest & E & F & N).
      assert (R : data_loop
                    (Py.slice_from (Py.lower s) (Py.rfind 49 (Py.lower s) + 1)) []
                  = Raise (InvalidCharacter ch)).
      { apply data_loop_first. exists good, rest.
        repeat split; [ exact E | now apply G | now apply not_In_CHARSET ]. }
      congruence.
Qed.

(** ** The alphabet and its dictionary *)

(** X14: [CHARSET_MAP] is the inverse of indexing [CHARSET]: it has 32
    keys, it maps the character [CHARSET[v]] to [v] for every [v] of
    [[0, 31]], and each of its keys [ch] is the character of [CHARSET] at
    the index it is mapped to, which lies in [[0, 31]]; so no character
    of the alphabet is lost to a repetition. *)
Theorem CHARSET_MAP_inverts_CHARSET :
  List.length CHARSET_MAP = 32%nat /\
  (forall v, 0 <= v < 32 ->
     Py.dict_get CHARSET_MAP (nth (Z.to_nat v) CHARSET 0) = Some v) /\
  (forall ch v, Py.dict_get CHARSET_MAP ch = Some v ->
     0 <= v < 32 /\ nth (Z.to_nat v) CHARSET 0 = ch) /\
  (forall ch, Py.dict_get CHARSET_MAP ch = None <-> ~ In ch CHARSET).
Proof.
  split; [ reflexivity | ]. split; [ | split ].
  - intros v Hv. now apply value_of_charset_at.
  - intros ch v H. apply value_of_inv in H. destruct H as [Hv ->].
    split; [ exact Hv | reflexivity ].
  - intros ch. symmetry. apply not_In_CHARSET.
Qed.

(** * The wallet example: little-endian integers and the transfer message

    [docs/examples/wallet-signing.py]: [uint128_to_le], [uint64_to_le]
    and [construct_transfer_message].  A [bytes] object is the list of
    its byte values. *)

Module Wallet.

Definition bytes := list Z.

Definition byte (b : Z) : Prop := 0 <= b < 256.

(** The exceptions these functions can raise: the [ValueError] of the
    two range checks, with the value and the width of its message,
    [struct.error], the [KeyError] of a missing key, the [ValueError] of
    [bytes.fromhex] and the [UnicodeEncodeError] of [str.encode]. *)
Inductive Error : Type :=
| OutOfRange (value : Z) (bits : Z)
| StructError
| KeyError (key : string)
| HexError
| EncodeError.

Inductive res (A : Type) : Type :=
| Done (a : A)
| Fail (e : Error).

Arguments Done {A} a.
Arguments Fail {A} e.

Definition and_then {A B} (r : res A) (k : A -> res B) : res B :=
  match r with
  | Done a => k a
  | Fail e => Fail e
  end.

Notation "x <-- r ;; k" := (and_then r (fun x => k))
  (at level 61, r at next level, right associativity).

(** [struct.pack('<Q', x)]: the 8 bytes of [x], least significant
    first; [struct.error] when [x] is not an unsigned 64-bit value. *)
Definition pack_Q (x : Z) : res bytes :=
  if (x <? 0) || (x >=? 2 ^ 64) then Fail StructError
  else Done (map (fun i => Z.land (Z.shiftr x (8 * i)) 255) (Py.range 8)).

(** [struct.pack('<QQ', x, y)]. *)
Definition pack_QQ (x y : Z) : res bytes :=
  a <-- pack_Q x ;;
  b <-- pack_Q y ;;
  Done (a ++ b).

Definition uint128_to_le (value : Z) : res bytes :=
  if (value <? 0) || (value >=? 2 ^ 128) then Fail (OutOfRange value 128)
  else
    let lower := Z.land value 0xFFFFFFFFFFFFFFFF in
    let upper := Z.land (Z.shiftr value 64) 0xFFFFFFFFFFFFFFFF in
    pack_QQ lower upper.

Definition uint64_to_le (value : Z) : res bytes :=
  if (value <? 0) || (value >=? 2 ^ 64) then Fail (OutOfRange value 64)
  else pack_Q value.

(** [int.from_bytes(bs, 'little')], to read the bytes back. *)
Definition le_value (bs : bytes) : Z :=
  fold_right (fun b acc => b + 256 * acc) 0 bs.

Section Message.

(** The two built-ins of the message that are taken as given:
    [bytes.fromhex] and [str.encode('utf-8')], each with [None] where it
    raises. *)
Variable fromhex : Py.str -> option bytes.
Variable encode_utf8 : Py.str -> option bytes.

(** The dictionary [transfer], one field per key the function reads;
    [None] is a key that is absent. *)
Record Transfer : Type := {
  t_from : option Py.str;
  t_to : option Py.str;
  t_amount : option Z;
  t_fee : option Z;
  t_nonce : option Z;
  t_memo : option Py.str
}.

(** [transfer[key]] and [transfer.get(key, default)]. *)
Definition item {A} (key : string) (field : option A) : res A :=
  match field with
  | Some v => Done v
  | None => Fail (KeyError key)
  end.

Definition get {A} (field : option A) (default : A) : A :=
  match field with
  | Some v => v
  | None => default
  end.

Definition hex (s : Py.str) : res bytes :=
  match fromhex s with
  | Some b => Done b
  | None => Fail HexError
  end.

Definition utf8 (s : Py.str) : res bytes :=
  match encode_utf8 s with
  | Some b => Done b
  | None => Fail EncodeError
  end.

Definition construct_transfer_message (transfer : Transfer) : res bytes :=
  f <-- item "from" (t_from transfer) ;;
  p_from <-- hex f ;;
  t <-- item "to" (t_to transfer) ;;
  p_to <-- hex t ;;
  a <-- item "amount" (t_amount transfer) ;;
  p_amount <-- uint128_to_le a ;;
  p_fee <-- uint128_to_le (get (t_fee transfer) 0) ;;
  n <-- item "nonce" (t_nonce transfer) ;;
  p_nonce <-- uint64_to_le n ;;
  p_memo <-- utf8 (get (t_memo transfer) []) ;;
  Done (List.concat [p_from; p_to; p_amount; p_fee; p_nonce; p_memo]).

End Message.

(** ** Little-endian bytes *)

Lemma le_value_app (a b : bytes) :
  le_value (a ++ b) = le_value a + 256 ^ Py.len a * le_value b.
Proof.
  unfold Py.len. induction a as [ | x a IH].
  - cbn [app List.length]. change (256 ^ Z.of_nat 0) with 1.
    change (le_value []) with 0. lia.
  - cbn [app le_value fold_right]. fold (le_value (a ++ b)). fold (le_value a).
    rewrite IH, length_cons, Nat2Z.inj_succ, Z.pow_succ_r by lia. lia.
Qed.

Lemma pack_Q_Done (x : Z) :
  0 <= x < 2 ^ 64 ->
  exists bs, pack_Q x = Done bs /\
             List.length bs = 8%nat /\ Forall byte bs /\ le_value bs = x.
Proof.
  intros Hx. unfold pack_Q.
  destruct (Z.ltb_spec x 0); [ lia | ].
  destruct (Z.geb_spec x (2 ^ 64)); [ lia | ]. cbn [orb].
  eexists. split; [ reflexivity | ]. split; [ reflexivity | ]. split.
  - apply Forall_map, Forall_forall. intros i _. unfold byte.
    change 255 with (Z.ones 8). rewrite Z.land_ones by lia.
    apply Z.mod_pos_bound. lia.
  - change (Py.range 8) with [0; 1; 2; 3; 4; 5; 6; 7].
    unfold le_value. cbn [map fold_right].
    change 255 with (Z.ones 8). rewrite !Z.land_ones by lia.
    change (8 * 0) with 0. change (8 * 1) with 8. change (8 * 2) with 16.
    change (8 * 3) with 24. change (8 * 4) with 32. change (8 * 5) with 40.
    change (8 * 6) with 48. change (8 * 7) with 56.
    rewrite !Z.shiftr_div_pow2 by lia.
    change (2 ^ 0) with 1. change (2 ^ 8) with 256.
    change (2 ^ 16) with 65536. change (2 ^ 24) with 16777216.
    change (2 ^ 32) with 4294967296. change (2 ^ 40) with 1099511627776.
    change (2 ^ 48) with 281474976710656.
    change (2 ^ 56) with 72057594037927936.
    change (2 ^ 64) with 18446744073709551616 in *.
    Z.div_mod_to_equations. lia.
Qed.

Lemma uint64_to_le_Done (value : Z) (bs : bytes) :
  uint64_to_le value = Done bs ->
  0 <= value < 2 ^ 64 /\
  List.length bs = 8%nat /\ Forall byte bs /\ le_value bs = value.
Proof.
  unfold uint64_to_le.
  destruct (Z.ltb_spec value 0); [ discriminate | ].
  destruct (Z.geb_spec value (2 ^ 64)); [ discriminate | ]. cbn [orb].
  intros E. destruct (pack_Q_Done value) as (bs' & E' & H'); [ lia | ].
  rewrite E' in E. injection E as <-. split; [ lia | exact H' ].
Qed.

Lemma uint128_halves (value : Z) :
  0 <= value < 2 ^ 128 ->
  exists lo hi,
    pack_Q (value mod 2 ^ 64) = Done lo /\ pack_Q (value / 2 ^ 64) = Done hi /\
    uint128_to_le value = Done (lo ++ hi) /\
    List.length (lo ++ hi) = 16%nat /\ Forall byte (lo ++ hi) /\
    le_value (lo ++ hi) = value.
Proof.
  intros Hv.
  assert (Hlo : 0 <= value mod 2 ^ 64 < 2 ^ 64) by (apply Z.mod_pos_bound; lia).
  assert (Hhi : 0 <= value / 2 ^ 64 < 2 ^ 64).
  { split; [ apply Z.div_pos; lia | ].
    apply Z.div_lt_upper_bound; [ lia | ].
    change (2 ^ 64 * 2 ^ 64) with (2 ^ 128). lia. }
  destruct (pack_Q_Done _ Hlo) as (lo & Elo & Llo & Blo & Vlo).
  destruct (pack_Q_Done _ Hhi) as (hi & Ehi & Lhi & Bhi & Vhi).
  exists lo, hi. split; [ exact Elo | ]. split; [ exact Ehi | ].
  split; [ | split; [ | split ] ].
  - unfold uint128_to_le.
    destruct (Z.ltb_spec value 0); [ lia | ].
    destruct (Z.geb_spec value (2 ^ 128)); [ lia | ]. cbn [orb]. cbv zeta.
    change 0xFFFFFFFFFFFFFFFF with (Z.ones 64).
    rewrite !Z.land_ones, Z.shiftr_div_pow2 by lia.
    rewrite (Z.mod_small (value / 2 ^ 64)) by assumption.
    unfold pack_QQ. rewrite Elo, Ehi. reflexivity.
  - rewrite length_app. lia.
  - apply Forall_app. now split.
  - rewrite le_value_app, Vlo, Vhi. unfold Py.len. rewrite Llo.
    change (256 ^ Z.of_nat 8) with (2 ^ 64).
    pose proof (Z.div_mod value (2 ^ 64)). lia.
Qed.

Lemma uint128_to_le_Done (value : Z) (bs : bytes) :
  uint128_to_le value = Done bs ->
  0 <= value < 2 ^ 128 /\
  List.length bs = 16%nat /\ Forall byte bs /\ le_value bs = value.
Proof.
  intros E.
  assert (Hv : 0 <= value < 2 ^ 128).
  { unfold uint128_to_le in E.
    destruct (Z.ltb_spec value 0); [ discriminate | ].
    destruct (Z.geb_spec value (2 ^ 128)); [ discriminate | lia ]. }
  destruct (uint128_halves value Hv) as (lo & hi & _ & _ & E' & H').
  rewrite E' in E. injection E as <-. split; [ exact Hv | exact H' ].
Qed.

(** X10: [uint64_to_le] raises its [ValueError] exactly on the values
    below 0 or from [2^64] on, and never [struct.error]; on every other
    value it returns 8 bytes, each in [[0, 255]], whose little-endian
    reading is the value. *)
Theorem uint64_to_le_spec (value : Z) :
  (value < 0 \/ 2 ^ 64 <= value ->
   uint64_to_le value = Fail (OutOfRange value 64)) /\
  (0 <= value < 2 ^ 64 ->
   exists bs, uint64_to_le value = Done bs /\
              List.length bs = 8%nat /\ Forall byte bs /\ le_value bs = value).
Proof.
  unfold uint64_to_le. split; intros H.
  - destruct (Z.ltb_spec value 0), (Z.geb_spec value (2 ^ 64));
      try reflexivity; lia.
  - destruct (Z.ltb_spec value 0); [ lia | ].
    destruct (Z.geb_spec value (2 ^ 64)); [ lia | ]. cbn [orb].
    now apply pack_Q_Done.
Qed.

(** X11: [uint128_to_le] raises its [ValueError] exactly on the values
    below 0 or from [2^128] on, and never [struct.error]; on every other
    value it returns 16 bytes whose little-endian reading is the value:
    the 8 bytes [uint64_to_le] gives for the low 64 bits, then the 8
    bytes it gives for the high 64 bits. *)
Theorem uint128_to_le_spec (value : Z) :
  (value < 0 \/ 2 ^ 128 <= value ->
   uint128_to_le value = Fail (OutOfRange value 128)) /\
  (0 <= value < 2 ^ 128 ->
   exists lo hi,
     uint64_to_le (value mod 2 ^ 64) = Done lo /\
     uint64_to_le (value / 2 ^ 64) = Done hi /\
     uint128_to_le value = Done (lo ++ hi) /\
     List.length (lo ++ hi) = 16%nat /\ Forall byte (lo ++ hi) /\
     le_value (lo ++ hi) = value).
Proof.
  split; intros H.
  - unfold uint128_to_le.
    destruct (Z.ltb_spec value 0), (Z.geb_spec value (2 ^ 128));
      try reflexivity; lia.
  - destruct (uint128_halves value H) as (lo & hi & Elo & Ehi & R).
    exists lo, hi. split; [ | split; [ | exact R ] ].
    + unfold uint64_to_le.
      pose proof (Z.mod_pos_bound value (2 ^ 64) ltac:(lia)).
      destruct (Z.ltb_spec (value mod 2 ^ 64) 0); [ lia | ].
      destruct (Z.geb_spec (value mod 2 ^ 64) (2 ^ 64)); [ lia | exact Elo ].
    + unfold uint64_to_le.
      assert (0 <= value / 2 ^ 64 < 2 ^ 64).
      { split; [ apply Z.div_pos; lia | ].
        apply Z.div_lt_upper_bound; [ lia | ].
        change (2 ^ 64 * 2 ^ 64) with (2 ^ 128). lia. }
      destruct (Z.ltb_spec (value / 2 ^ 64) 0); [ lia | ].
      destruct (Z.geb_spec (value / 2 ^ 64) (2 ^ 64)); [ lia | exact Ehi ].
Qed.

(** ** The transfer message *)

Section MessageFacts.

Variable fromhex : Py.str -> option bytes.
Variable encode_utf8 : Py.str -> option bytes.

Lemma message_inv (transfer : Transfer) (m : bytes) :
  construct_transfer_message fromhex encode_utf8 transfer = Done m ->
  exists f t a n p_from p_to p_amount p_fee p_nonce p_memo,
    t_from transfer = Some f /\ fromhex f = Some p_from /\
    t_to transfer = Some t /\ fromhex t = Some p_to /\
    t_amount transfer = Some a /\ uint128_to_le a = Done p_amount /\
    uint128_to_le (get (t_fee transfer) 0) = Done p_fee /\
    t_nonce transfer = Some n /\ uint64_to_le n = Done p_nonce /\
    encode_utf8 (get (t_memo transfer) []) = Some p_memo /\
    m = p_from ++ p_to ++ p_amount ++ p_fee ++ p_nonce ++ p_memo.
Proof.
  unfold construct_transfer_message, hex, utf8, item.
  destruct (t_from transfer) as [f | ]; [ | discriminate ]. cbn [and_then].
  destruct (fromhex f) as [p_from | ] eqn:Xf; [ | discriminate ]. cbn [and_then].
  destruct (t_to transfer) as [t | ]; [ | discriminate ]. cbn [and_then].
  destruct (fromhex t) as [p_to | ] eqn:Xt; [ | discriminate ]. cbn [and_then].
  destruct (t_amount transfer) as [a | ]; [ | discriminate ]. cbn [and_then].
  destruct (uint128_to_le a) as [p_amount | ] eqn:Pa; [ | discriminate ].
  cbn [and_then].
  destruct (uint128_to_le (get (t_fee transfer) 0)) as [p_fee | ] eqn:Pf;
    [ | discriminate ]. cbn [and_then].
  destruct (t_nonce transfer) as [n | ]; [ | discriminate ]. cbn [and_then].
  destruct (uint64_to_le n) as [p_nonce | ] eqn:Pn; [ | discriminate ].
  cbn [and_then].
  destruct (encode_utf8 (get (t_memo transfer) [])) as [p_memo | ] eqn:Xm;
    [ | discriminate ]. cbn [and_then].
  intros [= <-]. exists f, t, a, n, p_from, p_to, p_amount, p_fee, p_nonce, p_memo.
  cbn [List.concat]. rewrite app_nil_r. repeat split; assumption || reflexivity.
Qed.

(** What a message holds, field by field. *)
Definition holds (transfer : Transfer) (m : bytes)
    (p_from p_to p_memo : bytes) (amount fee nonce : Z) : Prop :=
  exists f t p_amount p_fee p_nonce,
    t_from transfer = Some f /\ fromhex f = Some p_from /\
    t_to transfer = Some t /\ fromhex t = Some p_to /\
    t_amount transfer = Some amount /\ fee = get (t_fee transfer) 0 /\
    t_nonce transfer = Some nonce /\
    encode_utf8 (get (t_memo transfer) []) = Some p_memo /\
    m = p_from ++ p_to ++ p_amount ++ p_fee ++ p_nonce ++ p_memo /\
    List.length p_amount = 16%nat /\ le_value p_amount = amount /\
    List.length p_fee = 16%nat /\ le_value p_fee = fee /\
    List.length p_nonce = 8%nat /\ le_value p_nonce = nonce.

Lemma message_holds (transfer : Transfer) (m : bytes) :
  construct_transfer_message fromhex encode_utf8 transfer = Done m ->
  exists p_from p_to p_memo amount fee nonce,
    holds transfer m p_from p_to p_memo amount fee nonce /\
    0 <= amount < 2 ^ 128 /\ 0 <= fee < 2 ^ 128 /\ 0 <= nonce < 2 ^ 64.
Proof.
  intros E. apply message_inv in E.
  destruct E as (f & t & a & n & p_from & p_to & p_amount & p_fee & p_nonce
                 & p_memo & Hf & Xf & Ht & Xt & Ha & Pa & Pf & Hn & Pn & Xm & ->).
  apply uint128_to_le_Done in Pa, Pf. apply uint64_to_le_Done in Pn.
  destruct Pa as (Ra & La & _ & Va), Pf as (Rf & Lf & _ & Vf),
    Pn as (Rn & Ln & _ & Vn).
  exists p_from, p_to, p_memo, a, (get (t_fee transfer) 0), n.
  split; [ | auto ].
  exists f, t, p_amount, p_fee, p_nonce. repeat split; assumption.
Qed.

(** The bytes of the sender and of the recipient, when the key is
    present and its value parses. *)
Definition sender_bytes (transfer : Transfer) : option bytes :=
  match t_from transfer with Some f => fromhex f | None => None end.

Definition recipient_bytes (transfer : Transfer) : option bytes :=
  match t_to transfer with Some t => fromhex t | None => None end.

Definition memo_bytes (transfer : Transfer) : option bytes :=
  encode_utf8 (get (t_memo transfer) []).

End MessageFacts.

(** X12: when [construct_transfer_message] returns, every key it reads
    without a default was present, the amount and the fee (0 when the key
    is absent) lie in [[0, 2^128)] and the nonce in [[0, 2^64)], and the
    message is, in this order, the bytes of the sender, the bytes of the
    recipient, the 16 bytes [uint128_to_le] gives for the amount, the 16
    bytes it gives for the fee, the 8 bytes [uint64_to_le] gives for the
    nonce, and the bytes of the memo (of the empty string when the key is
    absent).  Each of those 40 bytes lies in [[0, 255]], the three
    groups read back, least significant byte first, as the amount, the
    fee and the nonce, and the length of the message is 40 more than the
    lengths of the two addresses and the memo. *)
Theorem transfer_message_layout
    (fromhex encode_utf8 : Py.str -> option bytes)
    (transfer : Transfer) (m : bytes) :
  construct_transfer_message fromhex encode_utf8 transfer = Done m ->
  exists f t amount nonce p_from p_to p_amount p_fee p_nonce p_memo,
    let fee := match t_fee transfer with Some x => x | None => 0 end in
    let memo := match t_memo transfer with Some x => x | None => [] end in
    t_from transfer = Some f /\ fromhex f = Some p_from /\
    t_to transfer = Some t /\ fromhex t = Some p_to /\
    t_amount transfer = Some amount /\ t_nonce transfer = Some nonce /\
    encode_utf8 memo = Some p_memo /\
    uint128_to_le amount = Done p_amount /\
    uint128_to_le fee = Done p_fee /\
    uint64_to_le nonce = Done p_nonce /\
    m = p_from ++ p_to ++ p_amount ++ p_fee ++ p_nonce ++ p_memo /\
    (List.length p_amount = 16%nat /\ Forall byte p_amount /\
     le_value p_amount = amount) /\
    (List.length p_fee = 16%nat /\ Forall byte p_fee /\
     le_value p_fee = fee) /\
    (List.length p_nonce = 8%nat /\ Forall byte p_nonce /\
     le_value p_nonce = nonce) /\
    0 <= amount < 2 ^ 128 /\ 0 <= fee < 2 ^ 128 /\ 0 <= nonce < 2 ^ 64 /\
    Py.len m = Py.len p_from + Py.len p_to + 40 + Py.len p_memo.
Proof.
  intros E. apply message_inv in E.
  destruct E as (f & t & a & n & p_from & p_to & p_amount & p_fee & p_nonce
                 & p_memo & Hf & Xf & Ht & Xt & Ha & Pa & Pf & Hn & Pn & Xm & ->).
  exists f, t, a, n, p_from, p_to, p_amount, p_fee, p_nonce, p_memo.
  cbv zeta. unfold get in *.
  pose proof (uint128_to_le_Done _ _ Pa) as (Ra & Sa).
  pose proof (uint128_to_le_Done _ _ Pf) as (Rf & Sf).
  pose proof (uint64_to_le_Done _ _ Pn) as (Rn & Sn).
  do 10 (split; [ assumption | ]).
  split; [ reflexivity | ].
  do 6 (split; [ assumption | ]).
  destruct Sa as (La & _), Sf as (Lf & _), Sn as (Ln & _).
  unfold Py.len. rewrite !length_app. lia.
Qed.

(** [bytes.fromhex] on a string without whitespace: two hexadecimal
    digits a byte, [None] for any other character or an odd length. *)
Definition hex_digit (c : Z) : option Z :=
  if (48 <=? c) && (c <=? 57) then Some (c - 48)
  else if (97 <=? c) && (c <=? 102) then Some (c - 87)
  else if (65 <=? c) && (c <=? 70) then Some (c - 55)
  else None.

Fixpoint hex_pairs (s : Py.str) : option bytes :=
  match s with
  | [] => Some []
  | a :: b :: r =>
      match hex_digit a, hex_digit b, hex_pairs r with
      | Some x, Some y, Some bs => Some (16 * x + y :: bs)
      | _, _, _ => None
      end
  | _ => None
  end.

Definition hex_zeros (s : Py.str) : option bytes := Some (repeat 0 32).

(** [str.encode('utf-8')] on an ASCII string: its code points. *)
Definition same_bytes (s : Py.str) : option bytes := Some s.

(** The transfer of [example5_message_construction]. *)
Definition example5_transfer : Transfer :=
  {| t_from := Some (Py.lit
       "0000000000000000000000000000000000000000000000000000000000000001");
     t_to := Some (Py.lit
       "0000000000000000000000000000000000000000000000000000000000000002");
     t_amount := Some 5000; t_fee := Some 50; t_nonce := Some 1;
     t_memo := Some (Py.lit "test") |}.

Lemma transfer_message_layout_witness :
  exists m,
    construct_transfer_message hex_pairs same_bytes example5_transfer = Done m /\
    Py.len m = 108 /\
    m = repeat 0 31 ++ [1] ++ repeat 0 31 ++ [2]
        ++ [136; 19] ++ repeat 0 14 ++ [50] ++ repeat 0 15
        ++ [1] ++ repeat 0 7 ++ [116; 101; 115; 116].
Proof.
  assert (E : exists m,
             construct_transfer_message hex_pairs same_bytes example5_transfer
             = Done m /\
             m = repeat 0 31 ++ [1] ++ repeat 0 31 ++ [2]
                 ++ [136; 19] ++ repeat 0 14 ++ [50] ++ repeat 0 15
                 ++ [1] ++ repeat 0 7 ++ [116; 101; 115; 116]).
  { eexists. split; vm_compute; reflexivity. }
  destruct E as (m & E & Em). exists m.
  split; [ exact E | ]. split; [ | exact Em ].
  destruct (transfer_message_layout hex_pairs same_bytes example5_transfer m E)
    as (f & t & a & n & pf & pt & pa & pfe & pn & pm & H).
  cbv zeta in H.
  destruct H as (Hf & Xf & Ht & Xt & _ & _ & Xm & _ & _ & _ & _ & _ & _ & _
                 & _ & _ & _ & L).
  rewrite L.
  injection Hf as <-. injection Ht as <-.
  injection Xf as <-. injection Xt as <-. injection Xm as <-.
  reflexivity.
Defined.

(** X13: a message determines the transfer it was built from, once the
    address lengths are fixed: if two transfers give the same message and
    their senders have as many bytes as each other, and so do their
    recipients, then they have the same sender bytes, recipient bytes,
    amount, fee (0 when absent), nonce and memo bytes. *)
Theorem transfer_message_injective
    (fromhex encode_utf8 : Py.str -> option bytes)
    (tr1 tr2 : Transfer) (m : bytes) :
  construct_transfer_message fromhex encode_utf8 tr1 = Done m ->
  construct_transfer_message fromhex encode_utf8 tr2 = Done m ->
  option_map (@List.length Z) (sender_bytes fromhex tr1)
  = option_map (@List.length Z) (sender_bytes fromhex tr2) ->
  option_map (@List.length Z) (recipient_bytes fromhex tr1)
  = option_map (@List.length Z) (recipient_bytes fromhex tr2) ->
  sender_bytes fromhex tr1 = sender_bytes fromhex tr2 /\
  recipient_bytes fromhex tr1 = recipient_bytes fromhex tr2 /\
  t_amount tr1 = t_amount tr2 /\
  get (t_fee tr1) 0 = get (t_fee tr2) 0 /\
  t_nonce tr1 = t_nonce tr2 /\
  memo_bytes encode_utf8 tr1 = memo_bytes encode_utf8 tr2.
Proof.
  intros C1 C2 Lf Lt.
  apply message_holds in C1, C2.
  destruct C1 as (f1 & t1 & m1 & a1 & fee1 & n1 & H1 & _).
  destruct C2 as (f2 & t2 & m2 & a2 & fee2 & n2 & H2 & _).
  destruct H1 as (sf1 & st1 & pa1 & pf1 & pn1 & Hf1 & Xf1 & Ht1 & Xt1 & Ha1
                  & Ef1 & Hn1 & Xm1 & E1 & La1 & Va1 & Lf1 & Vf1 & Ln1 & Vn1).
  destruct H2 as (sf2 & st2 & pa2 & pf2 & pn2 & Hf2 & Xf2 & Ht2 & Xt2 & Ha2
                  & Ef2 & Hn2 & Xm2 & E2 & La2 & Va2 & Lf2 & Vf2 & Ln2 & Vn2).
  unfold sender_bytes, recipient_bytes, memo_bytes in *.
  rewrite Hf1, Hf2, Xf1, Xf2 in *. rewrite Ht1, Ht2, Xt1, Xt2 in *.
  rewrite Ha1, Ha2, Hn1, Hn2, Xm1, Xm2. rewrite <- Ef1, <- Ef2.
  cbn [option_map] in Lf, Lt. injection Lf as Lf. injection Lt as Lt.
  rewrite E1 in E2.
  apply app_inj_length in E2; [ | assumption ]. destruct E2 as [-> E2].
  apply app_inj_length in E2; [ | assumption ]. destruct E2 as [-> E2].
  apply app_inj_length in E2; [ | congruence ]. destruct E2 as [-> E2].
  apply app_inj_length in E2; [ | congruence ]. destruct E2 as [-> E2].
  apply app_inj_length in E2; [ | congruence ]. destruct E2 as [-> E2].
  repeat split; congruence.
Qed.

Definition transfer_no_fee : Transfer :=
  {| t_from := Some (Py.lit "00"); t_to := Some (Py.lit "00");
     t_amount := Some 5000; t_fee := None; t_nonce := Some 1;
     t_memo := None |}.

Definition transfer_zero_fee : Transfer :=
  {| t_from := Some (Py.lit "00"); t_to := Some (Py.lit "00");
     t_amount := Some 5000; t_fee := Some 0; t_nonce := Some 1;
     t_memo := Some [] |}.

Lemma transfer_message_injective_witness :
  sender_bytes hex_zeros transfer_no_fee = sender_bytes hex_zeros transfer_zero_fee /\
  recipient_bytes hex_zeros transfer_no_fee
  = recipient_bytes hex_zeros transfer_zero_fee /\
  t_amount transfer_no_fee = t_amount transfer_zero_fee /\
  get (t_fee transfer_no_fee) 0 = get (t_fee transfer_zero_fee) 0 /\
  t_nonce transfer_no_fee = t_nonce transfer_zero_fee /\
  memo_bytes same_bytes transfer_no_fee = memo_bytes same_bytes transfer_zero_fee.
Proof.
  assert (E : exists m,
             construct_transfer_message hex_zeros same_bytes transfer_no_fee
             = Done m /\
             construct_transfer_message hex_zeros same_bytes transfer_zero_fee
             = Done m).
  { eexists. split; vm_compute; reflexivity. }
  destruct E as (m & E1 & E2).
  apply (transfer_message_injective hex_zeros same_bytes
           transfer_no_fee transfer_zero_fee m E1 E2); reflexivity.
Defined.

End Wallet.
